(** * Dictionary-based text classifier (streamlit_app.py)

    A shallow embedding of the three pieces of logic of the Streamlit app:
    the "Save Changes" handler of the dictionary editor (lines 67-75), the
    helper [get_tags] (lines 101-107) and the classification that adds the
    [Tags] column and one boolean column per category (lines 96-112).

    Python [str] is modelled by [string] (ASCII text); Python exceptions by
    the error monad [result]; the ordered [dict] by an association list in
    insertion order; a [set] by the list of its elements; the pandas frame by
    the association list of its columns in column order.  The rendering of
    the page (widgets, preview, download) is not modelled. *)

From Stdlib Require Import Bool Arith ZArith QArith Lia List Ascii String DecimalString.
Import ListNotations.
Local Close Scope Q_scope.
Local Open Scope list_scope.
Local Open Scope string_scope.

(* ================================================================= *)
(** ** Python strings: [str.lower] and the operator [in] *)

Module PyStr.

(** [c.lower()] on an ASCII character: the letters A-Z move to a-z. *)
Definition lower_ascii (c : ascii) : ascii :=
  let n := nat_of_ascii c in
  if ((65 <=? n) && (n <=? 90))%nat then ascii_of_nat (n + 32) else c.

(** [s.lower()] on ASCII text, character by character.  Python's
    [str.lower] agrees with it on such text; outside ASCII it also changes
    other letters, and not always one by one. *)
Fixpoint lower (s : string) : string :=
  match s with
  | EmptyString => EmptyString
  | String c r => String (lower_ascii c) (lower r)
  end.

(** [t.startswith(w)] *)
Fixpoint startswith (w t : string) : bool :=
  match w, t with
  | EmptyString, _ => true
  | String _ _, EmptyString => false
  | String c w', String d t' => Ascii.eqb c d && startswith w' t'
  end.

(** [w in t] on two strings: [w] starts at some position of [t]. *)
Fixpoint str_in (w t : string) : bool :=
  startswith w t ||
  match t with
  | EmptyString => false
  | String _ r => str_in w r
  end.

(** What [in] decides: [w] is a contiguous piece of [t]. *)
Definition Substring (w t : string) : Prop :=
  exists pre post, t = pre ++ w ++ post.

(** Containment up to letter case: some piece of [t] equals [w] once both
    are lowercased. *)
Definition contains_ci (w t : string) : Prop :=
  exists pre u post, t = pre ++ u ++ post /\ lower u = lower w.

Lemma startswith_app (w t : string) :
  startswith w t = true <-> exists post, t = w ++ post.
Proof.
  revert t; induction w as [|c w IH]; intros t; simpl.
  - split; [intros _; now exists t | reflexivity].
  - destruct t as [|d t].
    + split; [discriminate | intros [post H]; discriminate].
    + rewrite andb_true_iff, Ascii.eqb_eq, IH. split.
      * intros [-> [post ->]]. now exists post.
      * intros [post H]. injection H as -> ->. split; [reflexivity | now exists post].
Qed.

Lemma str_in_spec (w t : string) : str_in w t = true <-> Substring w t.
Proof.
  induction t as [|d t IH]; simpl.
  - rewrite orb_false_r, startswith_app. split.
    + intros [post H]. now exists "", post.
    + intros [[|c pre] [post H]]; [now exists post | discriminate].
  - rewrite orb_true_iff, startswith_app, IH. split.
    + intros [[post H] | [pre [post H]]].
      * now exists "", post.
      * exists (String d pre), post. simpl. congruence.
    + intros [[|c pre] [post H]].
      * left. now exists post.
      * right. exists pre, post. simpl in H. congruence.
Qed.

Lemma str_in_empty (t : string) : str_in "" t = true.
Proof. destruct t; reflexivity. Qed.

Lemma lower_app (a b : string) : lower (a ++ b) = lower a ++ lower b.
Proof. induction a; simpl; congruence. Qed.

Lemma lower_ascii_idem (c : ascii) : lower_ascii (lower_ascii c) = lower_ascii c.
Proof.
  unfold lower_ascii.
  destruct ((65 <=? nat_of_ascii c) && (nat_of_ascii c <=? 90))%nat eqn:E.
  - apply andb_true_iff in E. destruct E as [E1 E2].
    apply Nat.leb_le in E1, E2.
    rewrite nat_ascii_embedding by lia.
    replace (nat_of_ascii c + 32 <=? 90)%nat with false
      by (symmetry; apply Nat.leb_gt; lia).
    now rewrite andb_false_r.
  - now rewrite E.
Qed.

Lemma lower_idem (s : string) : lower (lower s) = lower s.
Proof. induction s; simpl; [|rewrite lower_ascii_idem]; congruence. Qed.

(** A split of [lower t] comes from a split of [t]. *)
Lemma lower_split (t a b : string) :
  lower t = a ++ b -> exists a' b', t = a' ++ b' /\ lower a' = a /\ lower b' = b.
Proof.
  revert t; induction a as [|c a IH]; intros t H; simpl in H.
  - now exists "", t.
  - destruct t as [|d t]; [discriminate|]. simpl in H.
    injection H as Hc Ht. destruct (IH _ Ht) as (a' & b' & -> & Ha & Hb).
    exists (String d a'), b'. simpl. now rewrite Hc, Ha.
Qed.

Lemma contains_ci_lower (w t : string) :
  contains_ci w t <-> Substring (lower w) (lower t).
Proof.
  split.
  - intros (pre & u & post & -> & Hu).
    exists (lower pre), (lower post). now rewrite !lower_app, Hu.
  - intros (pre & post & H).
    apply lower_split in H. destruct H as (pre' & r & -> & _ & Hr).
    apply lower_split in Hr. destruct Hr as (u & post' & -> & Hu & _).
    now exists pre', u, post'.
Qed.

(** A piece of a lowercased text is its own lowercase form. *)
Lemma Substring_lower_fixed (w t : string) :
  Substring w (lower t) -> lower w = w.
Proof.
  intros (pre & post & H).
  apply lower_split in H. destruct H as (_ & r & _ & _ & Hr).
  apply lower_split in Hr. destruct Hr as (u & _ & _ & Hu & _).
  now rewrite <- Hu, lower_idem.
Qed.

End PyStr.

Import PyStr.
Local Open Scope list_scope.

(* ================================================================= *)
(** ** Exceptions *)

(** The exceptions the modelled code can raise. *)
Inductive exn : Type :=
| JSONDecodeError   (* [json.loads] on text that is not JSON *)
| AttributeError    (* [.items()] on a value that is not a dict *)
| TypeError         (* [set(v)] on a non-iterable or with an unhashable
                       element; [word in lower] with a non-string [word] *)
| KeyError.         (* [df[name]] on a missing column *)

Inductive result (A : Type) : Type :=
| Ok (a : A)
| Raise (e : exn).
Arguments Ok {A} a.
Arguments Raise {A} e.

Definition bind {A B : Type} (c : result A) (k : A -> result B) : result B :=
  match c with
  | Ok a => k a
  | Raise e => Raise e
  end.

Notation "x <- c ;; k" := (bind c (fun x => k))
  (at level 61, c at next level, right associativity).

(** [[f(x) for x in l]], stopping at the first exception. *)
Fixpoint mapM {A B : Type} (f : A -> result B) (l : list A) : result (list B) :=
  match l with
  | [] => Ok []
  | x :: r => y <- f x ;; ys <- mapM f r ;; Ok (y :: ys)
  end.

(** A [for] loop that threads a state and stops at the first exception. *)
Fixpoint foldM {A S : Type} (body : S -> A -> result S) (l : list A) (s : S)
  : result S :=
  match l with
  | [] => Ok s
  | x :: r => s' <- body s x ;; foldM body r s'
  end.

(* ================================================================= *)
(** ** Cell values and [str()] *)

(** The values a cell of the frame holds.  A float carries the text that
    [str] prints for it (float formatting is outside the model); the missing
    value of pandas is the float [nan]. *)
Inductive value : Type :=
| VNone
| VBool (b : bool)
| VInt (z : Z)
| VFloat (repr : string)
| VStr (s : string).

Definition NaN : value := VFloat "nan".

(** [str(x)] *)
Definition py_str (x : value) : string :=
  match x with
  | VNone => "None"
  | VBool true => "True"
  | VBool false => "False"
  | VInt z => NilZero.string_of_int (Z.to_int z)
  | VFloat repr => repr
  | VStr s => s
  end.

(** A missing value: the [nan] pandas puts in an empty cell, or [None]. *)
Definition missing (x : value) : Prop := x = NaN \/ x = VNone.

(* ================================================================= *)
(** ** Keyword sets and dictionaries *)

(** Python floats as [json.loads] yields them: a finite float is a rational
    number; [Infinity], [-Infinity] and [NaN] are the three special tokens. *)
Inductive float : Type :=
| Finite (q : Q)
| Infinity (negative : bool)
| NotANumber.

(** The hashable values: what an element of a keyword set can be. *)
Inductive atom : Type :=
| ANone
| ABool (b : bool)
| AInt (z : Z)
| AFloat (f : float)
| AStr (s : string).

(** Numeric value of an atom; [True] is 1 and [False] is 0. *)
Definition num_val (a : atom) : option Q :=
  match a with
  | ABool b => Some (inject_Z (if b then 1 else 0))
  | AInt z => Some (inject_Z z)
  | AFloat (Finite q) => Some q
  | _ => None
  end.

(** Equality of two set elements ([x is y or x == y]): numbers compare by
    value across [bool], [int] and [float]. *)
Definition py_eqb (a b : atom) : bool :=
  match a, b with
  | ANone, ANone => true
  | AStr s, AStr t => String.eqb s t
  | AFloat (Infinity m), AFloat (Infinity n) => Bool.eqb m n
  | AFloat NotANumber, AFloat NotANumber => true
  | _, _ =>
      match num_val a, num_val b with
      | Some p, Some q => Qeq_bool p q
      | _, _ => false
      end
  end.

(** [s.add(x)]: an element equal to [x] is kept, otherwise [x] is added. *)
Fixpoint set_add (x : atom) (s : list atom) : list atom :=
  match s with
  | [] => [x]
  | y :: r => if py_eqb y x then s else y :: set_add x r
  end.

(** [set(l)] for a list of hashable values.  Python leaves the iteration
    order of a set open; the list here has the elements in order of first
    occurrence, and what is stated about a stored set is about its
    elements, not their order. *)
Definition py_set (l : list atom) : list atom :=
  fold_left (fun s x => set_add x s) l [].

(** [dict[str, set]]: category name to keyword set, in insertion order. *)
Definition keyword_dict : Type := list (string * list atom).

(** [d.keys()] *)
Definition keys {V : Type} (d : list (string * V)) : list string := map fst d.

(** [d[k] = v]: replaces the value of an existing key in place, appends a
    new key at the end. *)
Fixpoint dict_set {V : Type} (k : string) (v : V) (d : list (string * V))
  : list (string * V) :=
  match d with
  | [] => [(k, v)]
  | (k', v') :: r =>
      if String.eqb k' k then (k', v) :: r else (k', v') :: dict_set k v r
  end.

(** [d.get(k)] *)
Fixpoint dict_get {V : Type} (k : string) (d : list (string * V)) : option V :=
  match d with
  | [] => None
  | (k', v) :: r => if String.eqb k' k then Some v else dict_get k r
  end.

Definition strs (l : list string) : list atom := map AStr l.

(** DEFAULT_DICTIONARIES (lines 31-44) *)
Definition urgency_words : list atom :=
  strs [ "limited"; "limited time"; "limited run"; "limited edition";
         "order now"; "last chance"; "hurry"; "while supplies last";
         "before they're gone"; "selling out"; "selling fast"; "act now";
         "don't wait"; "today only"; "expires soon"; "final hours";
         "almost gone" ].

Definition exclusive_words : list atom :=
  strs [ "exclusive"; "exclusively"; "exclusive offer"; "exclusive deal";
         "members only"; "vip"; "special access"; "invitation only";
         "premium"; "privileged"; "limited access"; "select customers";
         "insider"; "private sale"; "early access" ].

Definition DEFAULT_DICTIONARIES : keyword_dict :=
  [ ("urgency_marketing", urgency_words);
    ("exclusive_marketing", exclusive_words) ].

(** Every keyword of every category is a string. *)
Definition str_keywords (d : keyword_dict) : Prop :=
  forall c ws a, In (c, ws) d -> In a ws -> exists w, a = AStr w.

(* ================================================================= *)
(** ** The helper [get_tags] (lines 101-107) *)

(** [any(word in lower for word in words)]: the generator is consumed up to
    the first hit; [word in lower] raises [TypeError] when [word] is not a
    string. *)
Fixpoint any_in (lower : string) (words : list atom) : result bool :=
  match words with
  | [] => Ok false
  | AStr word :: rest => if str_in word lower then Ok true else any_in lower rest
  | _ :: _ => Raise TypeError
  end.

(** The [for] loop of [get_tags], [matches] being the list built so far. *)
Fixpoint get_tags_loop (lower : string) (items : keyword_dict)
  (matches : list string) : result (list string) :=
  match items with
  | [] => Ok matches
  | (category, words) :: rest =>
      hit <- any_in lower words ;;
      get_tags_loop lower rest (if hit then matches ++ [category] else matches)%list
  end.

(** [get_tags(text)], reading the dictionaries [d] of the session. *)
Definition get_tags (d : keyword_dict) (text : value) : result (list string) :=
  let lower := lower (py_str text) in
  get_tags_loop lower d [].

(** [x in l] on a list of strings. *)
Definition mem (x : string) (l : list string) : bool := existsb (String.eqb x) l.

(* ================================================================= *)
(** ** The session and the "Save Changes" handler (lines 67-75) *)

(** What [json.loads] returns. *)
#[warnings="-register-all"]
Inductive json : Type :=
| JNull
| JBool (b : bool)
| JInt (z : Z)
| JFloat (f : float)
| JStr (s : string)
| JArr (elems : list json)
| JObj (members : list (string * json)).

(** [v.items()]: only a dict has the method. *)
Definition items (v : json) : result (list (string * json)) :=
  match v with
  | JObj members => Ok members
  | _ => Raise AttributeError
  end.

(** [iter(v)]: a list yields its elements, a string its characters, a dict
    its keys; the other values are not iterable. *)
Definition iter (v : json) : result (list json) :=
  match v with
  | JArr elems => Ok elems
  | JStr s => Ok (map (fun c => JStr (String c EmptyString)) (list_ascii_of_string s))
  | JObj members => Ok (map (fun kv => JStr (fst kv)) members)
  | JNull | JBool _ | JInt _ | JFloat _ => Raise TypeError
  end.

(** [hash(v)] succeeds on the scalars; lists and dicts are unhashable. *)
Definition hashable (v : json) : result atom :=
  match v with
  | JNull => Ok ANone
  | JBool b => Ok (ABool b)
  | JInt z => Ok (AInt z)
  | JFloat f => Ok (AFloat f)
  | JStr s => Ok (AStr s)
  | JArr _ | JObj _ => Raise TypeError
  end.

(** [set(v)] *)
Definition set_of (v : json) : result (list atom) :=
  elems <- iter v ;;
  atoms <- mapM hashable elems ;;
  Ok (py_set atoms).

(** One step of the comprehension: [cleaned[k] = set(v)]. *)
Definition clean_step (cleaned : keyword_dict) (kv : string * json) : result keyword_dict :=
  s <- set_of (snd kv) ;; Ok (dict_set (fst kv) s cleaned).

(** [{k: set(v) for k, v in members}] *)
Definition cleaned_of (members : list (string * json)) : result keyword_dict :=
  foldM clean_step members [].

(** [st.session_state]: the entry ["dictionaries"]. *)
Record session_state : Type := { dictionaries : keyword_dict }.

(** What the handler shows: [st.success] or [st.error]. *)
Inductive message : Type :=
| Success (text : string)
| Error (text : string) (e : exn).

Section Sidebar.

(** [json.loads] on the text of the editor: [None] when it raises
    [JSONDecodeError].  The decoder itself is the library's. *)
Variable json_loads : string -> option json.

(** The body of the [try] (lines 69-71), up to the assignment. *)
Definition parse_and_clean (dict_text : string) : result keyword_dict :=
  parsed_dict <- match json_loads dict_text with
                 | Some v => Ok v
                 | None => Raise JSONDecodeError
                 end ;;
  members <- items parsed_dict ;;
  cleaned_of members.

(** The handler of the "Save Changes" button. *)
Definition save_changes (ss : session_state) (dict_text : string)
  : session_state * message :=
  match parse_and_clean dict_text with
  | Ok cleaned => ({| dictionaries := cleaned |}, Success "Dictionaries updated!")
  | Raise e => (ss, Error "Failed to parse JSON: " e)
  end.

End Sidebar.

(* ================================================================= *)
(** ** The classification run (lines 96-112) *)

Definition column : Type := list value.

(** A frame: its columns, in column order, each with its cells in row
    order. *)
Definition dataframe : Type := list (string * column).

(** [df.columns] *)
Definition columns (df : dataframe) : list string := keys df.

(** [df[name]] *)
Definition df_getitem (name : string) (df : dataframe) : result column :=
  match dict_get name df with
  | Some col => Ok col
  | None => Raise KeyError
  end.

(** [df[name] = col]: an existing column is overwritten where it stands, a
    new one is added after the last column. *)
Definition df_setitem (name : string) (col : column) (df : dataframe) : dataframe :=
  dict_set name col df.

(** [lambda x: ", ".join(get_tags(x))] (line 110) *)
Definition tags_of (d : keyword_dict) (x : value) : result value :=
  tags <- get_tags d x ;; Ok (VStr (String.concat ", " tags)).

(** [lambda x: category in get_tags(x)] (line 112) *)
Definition flag_of (d : keyword_dict) (category : string) (x : value) : result value :=
  tags <- get_tags d x ;; Ok (VBool (mem category tags)).

(** [series.apply(f)] *)
Definition apply (f : value -> result value) (series : column) : result column :=
  mapM f series.

(** The body of the loop (line 112):
    [df[category] = df["Statement"].apply(...)]. *)
Definition flag_step (d : keyword_dict) (df : dataframe) (category : string)
  : result dataframe :=
  statement <- df_getitem "Statement" df ;;
  flags <- apply (flag_of d category) statement ;;
  Ok (df_setitem category flags df).

(** Lines 110-112: the [Tags] column, then one column per category. *)
Definition annotate (d : keyword_dict) (df : dataframe) : result dataframe :=
  statement <- df_getitem "Statement" df ;;
  tags <- apply (tags_of d) statement ;;
  foldM (flag_step d) (keys d) (df_setitem "Tags" tags df).

(** How a run ends. *)
Inductive outcome : Type :=
| Complete (df : dataframe)   (* "Classification complete!", [df] is shown
                                 and offered for download *)
| Stopped (error : string)    (* [st.error(...)] then [st.stop()] *)
| Uncaught (e : exn).         (* an exception leaves the script *)

(** The run on a frame that [pd.read_csv] returned (lines 96-114). *)
Definition classify (d : keyword_dict) (df : dataframe) : outcome :=
  if negb (mem "Statement" (columns df)) then
    Stopped "The uploaded file must contain a 'Statement' column."
  else
    match annotate d df with
    | Ok df' => Complete df'
    | Raise e => Uncaught e
    end.

(** A press of "Run Classification": the run reads the session and leaves
    it as it is. *)
Definition run_classification (ss : session_state) (df : dataframe)
  : session_state * outcome :=
  (ss, classify (dictionaries ss) df).

(* ================================================================= *)
(** ** Facts about the containers *)

Lemma mem_In (x : string) (l : list string) : mem x l = true <-> In x l.
Proof.
  unfold mem. rewrite existsb_exists. split.
  - intros (y & Hy & E). apply String.eqb_eq in E. now subst.
  - intros H. exists x. split; [assumption | apply String.eqb_refl].
Qed.

Lemma mem_not_In (x : string) (l : list string) : mem x l = false <-> ~ In x l.
Proof. rewrite <- mem_In. destruct (mem x l); split; congruence. Qed.

Section Dict.
Context {V : Type}.
Implicit Types (d : list (string * V)) (k : string) (v : V).

Lemma dict_get_In k v d : dict_get k d = Some v -> In (k, v) d.
Proof.
  induction d as [|[k' v'] r IH]; simpl; [discriminate|].
  destruct (String.eqb_spec k' k) as [->|Hne].
  - intros [= ->]. now left.
  - intros H. right. auto.
Qed.

Lemma dict_get_None k d : dict_get k d = None <-> ~ In k (keys d).
Proof.
  induction d as [|[k' v'] r IH]; simpl; [tauto|].
  destruct (String.eqb_spec k' k) as [->|Hne].
  - split; [discriminate | intros H; exfalso; auto].
  - rewrite IH. tauto.
Qed.

Lemma dict_get_Some_keys k v d : dict_get k d = Some v -> In k (keys d).
Proof. intros H. apply dict_get_In in H. now apply (in_map fst) in H. Qed.

Lemma dict_get_set_same k v d : dict_get k (dict_set k v d) = Some v.
Proof.
  induction d as [|[k' v'] r IH]; simpl.
  - now rewrite String.eqb_refl.
  - destruct (String.eqb_spec k' k) as [->|Hne]; simpl.
    + now rewrite String.eqb_refl.
    + now apply String.eqb_neq in Hne as ->.
Qed.

Lemma dict_get_set_other k n v d :
  n <> k -> dict_get n (dict_set k v d) = dict_get n d.
Proof.
  intros Hn. induction d as [|[k' v'] r IH]; simpl.
  - apply not_eq_sym, String.eqb_neq in Hn. now rewrite Hn.
  - destruct (String.eqb_spec k' k) as [->|Hne]; simpl.
    + apply not_eq_sym, String.eqb_neq in Hn. now rewrite Hn.
    + now rewrite IH.
Qed.

(** A new key goes to the end. *)
Lemma dict_set_fresh k v d : ~ In k (keys d) -> dict_set k v d = d ++ [(k, v)].
Proof.
  induction d as [|[k' v'] r IH]; simpl; [reflexivity|].
  intros H. destruct (String.eqb_spec k' k) as [->|Hne]; [tauto|].
  rewrite IH; tauto.
Qed.

(** Writing back the value a key already has changes nothing. *)
Lemma dict_set_same_value k v d : dict_get k d = Some v -> dict_set k v d = d.
Proof.
  induction d as [|[k' v'] r IH]; simpl; [discriminate|].
  destruct (String.eqb_spec k' k) as [->|Hne].
  - now intros [= ->].
  - intros H. now rewrite IH.
Qed.

Lemma dict_get_app_l k v d d' :
  dict_get k d = Some v -> dict_get k (d ++ d') = Some v.
Proof.
  induction d as [|[k' v'] r IH]; simpl; [discriminate|].
  destruct (String.eqb k' k); auto.
Qed.

End Dict.

(** The monadic map of a function that never raises is [map]. *)
Lemma mapM_total {A B : Type} (f : A -> result B) (g : A -> B) (l : list A) :
  (forall x, In x l -> f x = Ok (g x)) -> mapM f l = Ok (map g l).
Proof.
  induction l as [|x r IH]; simpl; intros H; [reflexivity|].
  rewrite (H x) by now left. simpl. rewrite IH by auto. reflexivity.
Qed.

(* ================================================================= *)
(** ** Facts about [get_tags] *)

(** Does the element [a] of a keyword set occur in the text [lower]? *)
Definition atom_in (lower : string) (a : atom) : bool :=
  match a with
  | AStr w => str_in w lower
  | _ => false
  end.

(** Some keyword of the set occurs in [lower]. *)
Definition hit (lower : string) (words : list atom) : bool :=
  existsb (atom_in lower) words.

(** The categories of [d] with a keyword that occurs in [lower], in the
    order of [d]. *)
Definition matched (lower : string) (d : keyword_dict) : list string :=
  keys (filter (fun kv => hit lower (snd kv)) d).

Lemma hit_spec (lo : string) (ws : list atom) :
  hit lo ws = true <-> exists w, In (AStr w) ws /\ Substring w lo.
Proof.
  unfold hit. rewrite existsb_exists. split.
  - intros ([| | | |w] & Hin & Ha); try discriminate.
    exists w. split; [assumption | now apply str_in_spec].
  - intros (w & Hin & Hs). exists (AStr w). split; [assumption|].
    now apply str_in_spec.
Qed.

Lemma matched_spec (lo : string) (d : keyword_dict) (c : string) :
  In c (matched lo d) <-> exists ws, In (c, ws) d /\ hit lo ws = true.
Proof.
  unfold matched, keys. rewrite in_map_iff. split.
  - intros ([c' ws] & <- & H). apply filter_In in H. now exists ws.
  - intros (ws & Hin & Hh). exists (c, ws). split; [reflexivity|].
    apply filter_In. now split.
Qed.

(** [any] returns [True] only after a keyword was found. *)
Lemma any_in_sound (lo : string) (ws : list atom) :
  any_in lo ws = Ok true -> hit lo ws = true.
Proof.
  unfold hit. induction ws as [|a r IH]; simpl; [discriminate|].
  destruct a as [| | | |w]; try discriminate. simpl.
  destruct (str_in w lo); [reflexivity | exact IH].
Qed.

(** On a set of strings [any] never raises and decides [hit]. *)
Lemma any_in_strs (lo : string) (ws : list atom) :
  (forall a, In a ws -> exists w, a = AStr w) -> any_in lo ws = Ok (hit lo ws).
Proof.
  unfold hit. induction ws as [|a r IH]; simpl; intros H; [reflexivity|].
  destruct (H a) as [w ->]; [now left|]. simpl.
  destruct (str_in w lo); [reflexivity | apply IH; auto].
Qed.

Lemma get_tags_loop_sound (lo : string) (d : keyword_dict) :
  forall acc tags, get_tags_loop lo d acc = Ok tags ->
  forall c, In c tags -> In c acc \/ exists ws, In (c, ws) d /\ hit lo ws = true.
Proof.
  induction d as [|[c0 ws0] r IH]; simpl; intros acc tags H c Hc.
  - injection H as <-. now left.
  - destruct (any_in lo ws0) as [b|e] eqn:E; simpl in H; [|discriminate].
    destruct (IH _ _ H c Hc) as [Hacc | (ws & Hin & Hh)].
    + destruct b; [|now left].
      apply in_app_or in Hacc. destruct Hacc as [Hacc | [<- | []]]; [now left|].
      right. exists ws0. split; [now left | now apply any_in_sound].
    + right. exists ws. auto.
Qed.

Lemma get_tags_loop_strs (lo : string) (d : keyword_dict) :
  str_keywords d ->
  forall acc, get_tags_loop lo d acc = Ok (acc ++ matched lo d).
Proof.
  induction d as [|[c0 ws0] r IH]; simpl; intros Hd acc.
  - now rewrite app_nil_r.
  - rewrite any_in_strs by (intros a Ha; apply (Hd c0 ws0 a); [now left | assumption]).
    simpl. rewrite IH by (intros c ws a H; apply (Hd c ws a); now right).
    unfold matched. simpl. destruct (hit lo ws0); simpl; [|reflexivity].
    now rewrite <- app_assoc.
Qed.

(** The order in which a set of strings is iterated does not matter. *)
Lemma any_in_same_elements (lo : string) (ws ws' : list atom) :
  (forall a, In a ws -> exists w, a = AStr w) ->
  (forall a, In a ws <-> In a ws') ->
  any_in lo ws = any_in lo ws'.
Proof.
  intros Hs Hsame. rewrite !any_in_strs; try assumption.
  - f_equal. apply eq_true_iff_eq. rewrite !hit_spec.
    split; intros (w & Hw & Ho); exists w; (split; [now apply Hsame | exact Ho]).
  - intros a Ha. apply Hs. now apply Hsame.
Qed.

(** With string keywords [get_tags] returns the matched categories. *)
Lemma get_tags_strs (d : keyword_dict) (x : value) :
  str_keywords d -> get_tags d x = Ok (matched (lower (py_str x)) d).
Proof. intros Hd. unfold get_tags. now rewrite get_tags_loop_strs. Qed.

(** A checker for [str_keywords]. *)
Definition is_str (a : atom) : bool :=
  match a with AStr _ => true | _ => false end.

Definition str_keywordsb (d : keyword_dict) : bool :=
  forallb (fun kv => forallb is_str (snd kv)) d.

Lemma str_keywordsb_ok (d : keyword_dict) : str_keywordsb d = true -> str_keywords d.
Proof.
  unfold str_keywordsb. rewrite forallb_forall. intros H c ws a Hin Ha.
  specialize (H _ Hin). simpl in H. rewrite forallb_forall in H.
  specialize (H _ Ha). destruct a; try discriminate. eauto.
Qed.

Lemma str_keywords_default : str_keywords DEFAULT_DICTIONARIES.
Proof. now apply str_keywordsb_ok. Qed.

(* ================================================================= *)
(** ** Which categories [get_tags] returns *)

(** Category [c] of [d] has a keyword that occurs, as it is stored, in the
    lowercased string form of [x]. *)
Definition keyword_occurs (d : keyword_dict) (x : value) (c : string) : Prop :=
  exists ws w, In (c, ws) d /\ In (AStr w) ws /\ Substring w (lower (py_str x)).

(** Category [c] of [d] has a keyword whose lowercase form occurs in the
    lowercased string form of [x]. *)
Definition keyword_occurs_ci (d : keyword_dict) (x : value) (c : string) : Prop :=
  exists ws w, In (c, ws) d /\ In (AStr w) ws /\
               Substring (lower w) (lower (py_str x)).

(** A dictionary with a keyword in capitals, and a text that spells it in
    small letters. *)
Definition capitals_dict : keyword_dict := [("exclusive_marketing", strs ["VIP"])].
Definition small_text : value := VStr "vip access".

(** C1, as stated, fails: the keyword [VIP] lowercased is [vip], which occurs
    in the text, and yet the category is not returned, because [get_tags]
    lowercases the text only. *)
Lemma capital_keyword_not_matched :
  keyword_occurs_ci capitals_dict small_text "exclusive_marketing" /\
  exists tags, get_tags capitals_dict small_text = Ok tags /\
               ~ In "exclusive_marketing" tags.
Proof.
  split.
  - exists (strs ["VIP"]), "VIP". repeat split; [now left | now left|].
    now exists "", " access".
  - exists []. split; [reflexivity | intros []].
Qed.

(** C1, amended: with string keywords, [get_tags] returns a category exactly
    when one of its keywords, as stored and not lowercased, is a contiguous
    piece of the lowercased string form of the input. *)
Theorem get_tags_iff_keyword_occurs (d : keyword_dict) (x : value) (c : string) :
  str_keywords d ->
  exists tags, get_tags d x = Ok tags /\ (In c tags <-> keyword_occurs d x c).
Proof.
  intros Hd. exists (matched (lower (py_str x)) d). split.
  - now apply get_tags_strs.
  - rewrite matched_spec. unfold keyword_occurs. split.
    + intros (ws & Hin & Hh). apply hit_spec in Hh. destruct Hh as (w & Hw & Hs).
      now exists ws, w.
    + intros (ws & w & Hin & Hw & Hs). exists ws. split; [assumption|].
      apply hit_spec. now exists w.
Qed.

Lemma get_tags_iff_keyword_occurs_witness :
  exists tags, get_tags DEFAULT_DICTIONARIES (VStr "LIMITED TIME offer") = Ok tags /\
    (In "urgency_marketing" tags <->
     keyword_occurs DEFAULT_DICTIONARIES (VStr "LIMITED TIME offer") "urgency_marketing").
Proof.
  apply (get_tags_iff_keyword_occurs DEFAULT_DICTIONARIES (VStr "LIMITED TIME offer")
           "urgency_marketing").
  apply str_keywordsb_ok. reflexivity.
Defined.

(** A keyword that matches has no capital letter: it is its own lowercase
    form. *)
Lemma keyword_occurs_lowercase (w : string) (x : value) :
  Substring w (lower (py_str x)) -> lower w = w.
Proof. apply Substring_lower_fixed. Qed.

(** C7: every category that [get_tags] returns is a category of the
    dictionary whose keyword set is not empty and has a keyword that is,
    letter case aside, a contiguous piece of the text. *)
Theorem get_tags_sound (d : keyword_dict) (x : value) (tags : list string) (c : string) :
  get_tags d x = Ok tags ->
  In c tags ->
  exists ws, In (c, ws) d /\ ws <> [] /\
             exists w, In (AStr w) ws /\ contains_ci w (py_str x).
Proof.
  unfold get_tags. intros H Hc.
  destruct (get_tags_loop_sound _ _ _ _ H c Hc) as [[] | (ws & Hin & Hh)].
  apply hit_spec in Hh. destruct Hh as (w & Hw & Hs).
  exists ws. split; [assumption|]. split.
  - intros ->. destruct Hw.
  - exists w. split; [assumption|]. apply contains_ci_lower.
    now rewrite (Substring_lower_fixed _ _ Hs).
Qed.

Lemma get_tags_sound_witness :
  exists ws, In ("urgency_marketing", ws) DEFAULT_DICTIONARIES /\ ws <> [] /\
             exists w, In (AStr w) ws /\ contains_ci w (py_str (VStr "Act NOW!")).
Proof.
  apply (get_tags_sound DEFAULT_DICTIONARIES (VStr "Act NOW!")
           ["urgency_marketing"] "urgency_marketing").
  - reflexivity.
  - simpl. left. reflexivity.
Defined.

(* ================================================================= *)
(** ** Missing values *)

(** Every keyword of every category is a non-empty string. *)
Definition nonempty_str_keywords (d : keyword_dict) : Prop :=
  forall c ws a, In (c, ws) d -> In a ws -> exists w, a = AStr w /\ w <> "".

(** A dictionary with short keywords. *)
Definition articles_dict : keyword_dict := [("articles", strs ["an"; "the"])].

(** C2, as stated, fails: the missing value [nan] is turned into the text
    [nan] by [str], not into the empty text, and the keyword [an] occurs in
    it. *)
Lemma missing_value_matched :
  missing NaN /\ nonempty_str_keywords articles_dict /\
  get_tags articles_dict NaN = Ok ["articles"].
Proof.
  split; [now left|]. split; [|reflexivity].
  intros c ws a [[= <- <-] | []] [<- | [<- | []]]; eexists; split;
    try reflexivity; discriminate.
Qed.

(** C2, amended: a missing value is matched as the text [nan] (for [None]:
    [none]); with string keywords, [get_tags] returns the empty list exactly
    when no keyword occurs in that text. *)
Theorem get_tags_missing (d : keyword_dict) (x : value) :
  missing x ->
  str_keywords d ->
  (lower (py_str x) = "nan" \/ lower (py_str x) = "none") /\
  (get_tags d x = Ok [] <->
   forall c ws w, In (c, ws) d -> In (AStr w) ws -> ~ Substring w (lower (py_str x))).
Proof.
  intros Hx Hd. split; [destruct Hx as [-> | ->]; [now left | now right]|].
  rewrite (get_tags_strs d x Hd). split.
  - intros [= E] c ws w Hin Hw Hs.
    assert (Hc : In c (matched (lower (py_str x)) d)).
    { apply matched_spec. exists ws. split; [assumption|]. apply hit_spec. now exists w. }
    rewrite E in Hc. destruct Hc.
  - intros H. f_equal.
    destruct (matched (lower (py_str x)) d) as [|c r] eqn:E; [reflexivity|].
    assert (Hc : In c (matched (lower (py_str x)) d)) by (rewrite E; now left).
    apply matched_spec in Hc. destruct Hc as (ws & Hin & Hh).
    apply hit_spec in Hh. destruct Hh as (w & Hw & Hs).
    destruct (H c ws w Hin Hw Hs).
Qed.

Lemma get_tags_missing_witness :
  (lower (py_str NaN) = "nan" \/ lower (py_str NaN) = "none") /\
  (get_tags DEFAULT_DICTIONARIES NaN = Ok [] <->
   forall c ws w, In (c, ws) DEFAULT_DICTIONARIES -> In (AStr w) ws ->
                  ~ Substring w (lower (py_str NaN))).
Proof.
  apply (get_tags_missing DEFAULT_DICTIONARIES NaN).
  - left. reflexivity.
  - apply str_keywordsb_ok. reflexivity.
Defined.

(** Under the built-in dictionaries a missing value gets no tag. *)
Example get_tags_default_nan : get_tags DEFAULT_DICTIONARIES NaN = Ok [].
Proof. reflexivity. Qed.

(* ================================================================= *)
(** ** Facts about [set] and the dict comprehension *)

Lemma py_eqb_str (a : atom) (w : string) : py_eqb a (AStr w) = true -> a = AStr w.
Proof.
  destruct a as [|b|z|[q|n|]|s]; simpl; try discriminate.
  intros H. apply String.eqb_eq in H. now subst.
Qed.

Lemma set_add_In (a x : atom) (s : list atom) :
  In a (set_add x s) -> a = x \/ In a s.
Proof.
  induction s as [|y r IH]; simpl.
  - intros [<- | []]. now left.
  - destruct (py_eqb y x); simpl; [now right|].
    intros [<- | H]; [right; now left|]. destruct (IH H); auto.
Qed.

Lemma set_add_keeps (a x : atom) (s : list atom) : In a s -> In a (set_add x s).
Proof.
  induction s as [|y r IH]; simpl; [intros []|].
  destruct (py_eqb y x); simpl; [auto|]. intros [<- | H]; auto.
Qed.

Lemma set_add_str (w : string) (s : list atom) : In (AStr w) (set_add (AStr w) s).
Proof.
  induction s as [|y r IH]; simpl; [now left|].
  destruct (py_eqb y (AStr w)) eqn:E; simpl; [|now right].
  apply py_eqb_str in E. subst. now left.
Qed.

Lemma py_set_fold_In (a : atom) (l : list atom) :
  forall acc, In a (fold_left (fun s x => set_add x s) l acc) -> In a acc \/ In a l.
Proof.
  induction l as [|x r IH]; simpl; intros acc H; [now left|].
  destruct (IH _ H) as [H' | H']; [|right; now right].
  destruct (set_add_In _ _ _ H') as [-> | H'']; [right; now left | now left].
Qed.

Lemma py_set_fold_keeps (a : atom) (l : list atom) :
  forall acc, In a acc -> In a (fold_left (fun s x => set_add x s) l acc).
Proof.
  induction l as [|x r IH]; simpl; intros acc H; [assumption|].
  apply IH. now apply set_add_keeps.
Qed.

(** The elements of [set(l)] are elements of [l]. *)
Lemma py_set_In (a : atom) (l : list atom) : In a (py_set l) -> In a l.
Proof. intros H. now destruct (py_set_fold_In _ _ _ H) as [[] | H']. Qed.

(** A string of [l] is in [set(l)]. *)
Lemma py_set_str (w : string) (l : list atom) : In (AStr w) l -> In (AStr w) (py_set l).
Proof.
  unfold py_set. generalize (@nil atom).
  induction l as [|x r IH]; simpl; intros acc; [intros []|].
  intros [-> | H]; [|now apply IH].
  apply py_set_fold_keeps, set_add_str.
Qed.

Lemma mapM_hashable_strs (ws : list string) :
  mapM hashable (map JStr ws) = Ok (strs ws).
Proof. induction ws as [|w r IH]; simpl; [reflexivity|]. now rewrite IH. Qed.

(** One member whose [set(v)] raises makes the comprehension raise. *)
Lemma clean_loop_raises (members : list (string * json)) (k : string) (v : json) (e : exn) :
  In (k, v) members ->
  set_of v = Raise e ->
  forall acc, exists e', foldM clean_step members acc = Raise e'.
Proof.
  induction members as [|[k0 v0] r IH]; simpl; intros Hin Hv acc; [destruct Hin|].
  unfold clean_step at 1. simpl fst. simpl snd.
  destruct (set_of v0) as [s|e0] eqn:E; simpl.
  - destruct Hin as [[= -> ->] | Hin]; [congruence | now apply IH].
  - now exists e0.
Qed.

(** The values [iter] refuses. *)
Definition non_iterable (v : json) : Prop :=
  match v with
  | JNull | JBool _ | JInt _ | JFloat _ => True
  | JStr _ | JArr _ | JObj _ => False
  end.

Definition is_mapping (v : json) : Prop :=
  match v with
  | JObj _ => True
  | _ => False
  end.

Lemma set_of_non_iterable (v : json) : non_iterable v -> set_of v = Raise TypeError.
Proof. destruct v; simpl; tauto || reflexivity. Qed.

(* ================================================================= *)
(** ** The "Save Changes" handler *)

(** The JSON value that denotes a hashable value, and the JSON object that
    denotes a dictionary: category name to the list of its keywords. *)
Definition atom_json (a : atom) : json :=
  match a with
  | ANone => JNull
  | ABool b => JBool b
  | AInt z => JInt z
  | AFloat f => JFloat f
  | AStr s => JStr s
  end.

Definition config_of (d : keyword_dict) : json :=
  JObj (map (fun kv => (fst kv, JArr (map atom_json (snd kv)))) d).

Lemma hashable_atom_json (a : atom) : hashable (atom_json a) = Ok a.
Proof. now destruct a. Qed.

(** Sample editor texts, and a decoder that knows them: it stands for
    [json.loads] in the examples and rejects every other text. *)
Definition dq : string := String (ascii_of_nat 34) "".

Definition quoted (s : string) : string := (dq ++ s ++ dq)%string.

(** A mapping with a number as value. *)
Definition number_valued_text : string :=
  ("{" ++ quoted "urgency_marketing" ++ ": 5}")%string.

(** A mapping with an empty keyword. *)
Definition empty_keyword_text : string :=
  ("{" ++ quoted "always" ++ ": [" ++ quoted "" ++ ", " ++ quoted "sale" ++ "]}")%string.

Definition sample_loads (text : string) : option json :=
  if String.eqb text number_valued_text then
    Some (JObj [("urgency_marketing", JInt 5)])
  else if String.eqb text empty_keyword_text then
    Some (JObj [("always", JArr [JStr ""; JStr "sale"])])
  else if String.eqb text "[1, 2]" then
    Some (JArr [JInt 1; JInt 2])
  else None.

Definition default_session : session_state :=
  {| dictionaries := DEFAULT_DICTIONARIES |}.

Section SaveChanges.

Variable json_loads : string -> option json.

(** The three kinds of malformed editor text: it does not parse; it parses
    to something that is not a mapping; it parses to a mapping one of whose
    values is not iterable. *)
Definition malformed (dict_text : string) : Prop :=
  json_loads dict_text = None \/
  (exists v, json_loads dict_text = Some v /\ ~ is_mapping v) \/
  (exists members k v, json_loads dict_text = Some (JObj members) /\
                       In (k, v) members /\ non_iterable v).

(** Whatever exception the [try] block raises, the session is left as it
    was: the assignment to the session is the last step of the block. *)
Lemma save_changes_raise (ss : session_state) (dict_text : string) (e : exn) :
  parse_and_clean json_loads dict_text = Raise e ->
  save_changes json_loads ss dict_text = (ss, Error "Failed to parse JSON: " e).
Proof. intros H. unfold save_changes. now rewrite H. Qed.

Lemma save_changes_error_keeps_session (ss ss' : session_state) (dict_text text : string)
  (e : exn) :
  save_changes json_loads ss dict_text = (ss', Error text e) -> ss' = ss.
Proof.
  unfold save_changes. destruct (parse_and_clean json_loads dict_text); congruence.
Qed.

(** C3: on a malformed editor text the handler reports an error and the
    session, with its dictionaries, is the one from before. *)
Theorem save_changes_malformed (ss : session_state) (dict_text : string) :
  malformed dict_text ->
  exists e, save_changes json_loads ss dict_text =
            (ss, Error "Failed to parse JSON: " e).
Proof.
  intros [H | [(v & H & Hv) | (members & k & v & H & Hin & Hv)]].
  - exists JSONDecodeError. apply save_changes_raise.
    unfold parse_and_clean. now rewrite H.
  - exists AttributeError. apply save_changes_raise.
    unfold parse_and_clean. rewrite H. destruct v; simpl in *; tauto || reflexivity.
  - destruct (clean_loop_raises members k v TypeError Hin
                (set_of_non_iterable v Hv) []) as [e He].
    exists e. apply save_changes_raise.
    unfold parse_and_clean. rewrite H. simpl. exact He.
Qed.

End SaveChanges.

Lemma save_changes_malformed_witness :
  exists e, save_changes sample_loads default_session number_valued_text =
            (default_session, Error "Failed to parse JSON: " e).
Proof.
  apply (save_changes_malformed sample_loads default_session number_valued_text).
  right. right. exists [("urgency_marketing", JInt 5)], "urgency_marketing", (JInt 5).
  split; [reflexivity|]. split; [left; reflexivity | exact I].
Defined.

(** The three kinds of failure on sample texts. *)
Example save_changes_not_json :
  save_changes sample_loads default_session "{urgency" =
  (default_session, Error "Failed to parse JSON: " JSONDecodeError).
Proof. reflexivity. Qed.

Example save_changes_not_mapping :
  save_changes sample_loads default_session "[1, 2]" =
  (default_session, Error "Failed to parse JSON: " AttributeError).
Proof. reflexivity. Qed.

Example save_changes_number_value :
  save_changes sample_loads default_session number_valued_text =
  (default_session, Error "Failed to parse JSON: " TypeError).
Proof. reflexivity. Qed.

(* ================================================================= *)
(** ** Empty keywords *)

(** The empty keyword occurs in every text. *)
Lemma empty_keyword_hit (lo : string) (ws : list atom) :
  In (AStr "") ws -> hit lo ws = true.
Proof. intros H. apply hit_spec. exists "". split; [assumption | now exists "", lo]. Qed.

Definition always_dict : keyword_dict := [("always", strs [""; "sale"])].

(** Saving the sample text with an empty keyword, then tagging a text none
    of whose words is a keyword. *)
Example save_then_tag_empty_keyword :
  save_changes sample_loads default_session empty_keyword_text =
  ({| dictionaries := always_dict |}, Success "Dictionaries updated!") /\
  get_tags always_dict (VStr "The weather is nice today") = Ok ["always"] /\
  get_tags always_dict (VStr "") = Ok ["always"].
Proof. repeat split. Qed.

(* ================================================================= *)
(** ** Facts about the classification *)

(** The cells the two lambdas compute when the keywords are strings. *)
Definition tag_cell (d : keyword_dict) (x : value) : value :=
  VStr (String.concat ", " (matched (lower (py_str x)) d)).

Definition flag_cell (d : keyword_dict) (category : string) (x : value) : value :=
  VBool (mem category (matched (lower (py_str x)) d)).

Definition flag_column (d : keyword_dict) (statement : column) (category : string)
  : string * column :=
  (category, map (flag_cell d category) statement).

Section StringKeywords.

Variable d : keyword_dict.
Hypothesis Hd : str_keywords d.

Lemma tags_of_strs (x : value) : tags_of d x = Ok (tag_cell d x).
Proof. unfold tags_of. now rewrite (get_tags_strs d x Hd). Qed.

Lemma flag_of_strs (c : string) (x : value) : flag_of d c x = Ok (flag_cell d c x).
Proof. unfold flag_of. now rewrite (get_tags_strs d x Hd). Qed.

Lemma apply_tags_strs (statement : column) :
  apply (tags_of d) statement = Ok (map (tag_cell d) statement).
Proof. apply mapM_total. intros x _. apply tags_of_strs. Qed.

Lemma apply_flag_strs (c : string) (statement : column) :
  apply (flag_of d c) statement = Ok (map (flag_cell d c) statement).
Proof. apply mapM_total. intros x _. apply flag_of_strs. Qed.

Lemma flag_step_strs (df : dataframe) (statement : column) (c : string) :
  dict_get "Statement" df = Some statement ->
  flag_step d df c = Ok (dict_set c (map (flag_cell d c) statement) df).
Proof.
  intros H. unfold flag_step, df_getitem. rewrite H. simpl.
  now rewrite apply_flag_strs.
Qed.

(** The loop over the categories [cs], none of which is [Statement]: each
    gets its column of flags, computed from the [Statement] column, and no
    other column changes. *)
Lemma flag_loop (statement : column) (cs : list string) :
  ~ In "Statement" cs ->
  forall cur, dict_get "Statement" cur = Some statement ->
  exists out,
    foldM (flag_step d) cs cur = Ok out /\
    (forall n, ~ In n cs -> dict_get n out = dict_get n cur) /\
    (forall c, In c cs -> dict_get c out = Some (map (flag_cell d c) statement)).
Proof.
  induction cs as [|c r IH]; intros Hs cur Hcur; cbn [foldM].
  - exists cur. split; [reflexivity|]. split; [reflexivity | intros c []].
  - rewrite (flag_step_strs cur statement c Hcur). cbn [bind].
    assert (Hc : c <> "Statement") by (intros ->; apply Hs; now left).
    destruct (IH (fun H => Hs (or_intror H))
                 (dict_set c (map (flag_cell d c) statement) cur))
      as (out & Hout & Hframe & Hflags).
    { rewrite dict_get_set_other by congruence. exact Hcur. }
    exists out. split; [exact Hout|]. split.
    + intros n Hn. rewrite Hframe by (intros H; apply Hn; now right).
      apply dict_get_set_other. intros ->. apply Hn. now left.
    + intros c' Hc'. destruct (in_dec string_dec c' r) as [Hr | Hr]; [now apply Hflags|].
      destruct Hc' as [<- | Hc']; [|contradiction].
      rewrite Hframe by exact Hr. apply dict_get_set_same.
Qed.

(** The same loop when the categories are distinct and none names a column
    of the frame: the columns of flags are appended, in order. *)
Lemma flag_loop_fresh (statement : column) (cs : list string) :
  NoDup cs ->
  forall cur,
  dict_get "Statement" cur = Some statement ->
  (forall c, In c cs -> ~ In c (keys cur)) ->
  foldM (flag_step d) cs cur = Ok (cur ++ map (flag_column d statement) cs).
Proof.
  induction cs as [|c r IH]; intros Hn cur Hcur Hfresh; cbn [foldM map].
  - now rewrite app_nil_r.
  - rewrite (flag_step_strs cur statement c Hcur). cbn [bind].
    rewrite dict_set_fresh by (apply Hfresh; now left).
    inversion Hn as [|? ? Hc Hr]; subst.
    rewrite IH.
    + now rewrite <- app_assoc.
    + exact Hr.
    + now apply dict_get_app_l.
    + intros c' Hc' H. unfold keys in H. rewrite map_app in H.
      apply in_app_or in H. destruct H as [H | [<- | []]].
      * apply (Hfresh c'); [now right | exact H].
      * contradiction.
Qed.

(** What [annotate] leaves in the frame when no category is called
    [Statement]. *)
Lemma annotate_columns (df : dataframe) (statement : column) :
  dict_get "Statement" df = Some statement ->
  ~ In "Statement" (keys d) ->
  exists out,
    annotate d df = Ok out /\
    dict_get "Statement" out = Some statement /\
    (~ In "Tags" (keys d) -> dict_get "Tags" out = Some (map (tag_cell d) statement)) /\
    (forall c, In c (keys d) -> dict_get c out = Some (map (flag_cell d c) statement)).
Proof.
  intros Hdf Hs. unfold annotate, df_getitem, df_setitem. rewrite Hdf. cbn [bind].
  rewrite apply_tags_strs. cbn [bind].
  destruct (flag_loop statement (keys d) Hs
              (dict_set "Tags" (map (tag_cell d) statement) df))
    as (out & Hout & Hframe & Hflags).
  { rewrite dict_get_set_other by discriminate. exact Hdf. }
  exists out. split; [exact Hout|]. split; [|split; [|exact Hflags]].
  - rewrite Hframe by exact Hs. rewrite dict_get_set_other by discriminate. exact Hdf.
  - intros Ht. rewrite Hframe by exact Ht. apply dict_get_set_same.
Qed.

(** What [annotate] returns when the names [Tags] and those of the
    categories are all new to the frame. *)
Lemma annotate_fresh (df : dataframe) (statement : column) :
  dict_get "Statement" df = Some statement ->
  NoDup (keys d) ->
  ~ In "Tags" (columns df) ->
  ~ In "Tags" (keys d) ->
  (forall c, In c (keys d) -> ~ In c (columns df)) ->
  annotate d df =
  Ok (df ++ ("Tags", map (tag_cell d) statement) :: map (flag_column d statement) (keys d)).
Proof.
  intros Hdf Hn Ht Htd Hfresh. unfold annotate, df_getitem, df_setitem.
  rewrite Hdf. cbn [bind]. rewrite apply_tags_strs. cbn [bind].
  rewrite dict_set_fresh by exact Ht.
  rewrite (flag_loop_fresh statement (keys d) Hn).
  - now rewrite <- app_assoc.
  - now apply dict_get_app_l.
  - intros c Hc H. unfold keys in H. rewrite map_app in H.
    apply in_app_or in H. destruct H as [H | [<- | []]].
    + now apply (Hfresh c).
    + contradiction.
Qed.

End StringKeywords.

Lemma classify_complete (d : keyword_dict) (df out : dataframe) (statement : column) :
  dict_get "Statement" df = Some statement ->
  annotate d df = Ok out ->
  classify d df = Complete out.
Proof.
  intros Hdf Hout. unfold classify.
  apply dict_get_Some_keys in Hdf. apply mem_In in Hdf.
  unfold columns. rewrite Hdf. simpl. now rewrite Hout.
Qed.

Lemma Forall2_map_graph {A B : Type} (P : A -> B -> Prop) (f : A -> B) (l : list A) :
  (forall x, P x (f x)) -> Forall2 P l (map f l).
Proof. intros H. induction l; simpl; constructor; auto. Qed.

(* ================================================================= *)
(** ** The [Tags] column and the columns of flags *)

(** [cell] is the joined list of the categories matched by [x]. *)
Definition is_tags_of (d : keyword_dict) (x cell : value) : Prop :=
  exists tags, get_tags d x = Ok tags /\ cell = VStr (String.concat ", " tags).

(** [cell] is the boolean that tells whether [category] is matched by [x]. *)
Definition is_flag_of (d : keyword_dict) (category : string) (x cell : value) : Prop :=
  exists tags b, get_tags d x = Ok tags /\ cell = VBool b /\
                 (b = true <-> In category tags).

(** In the frame [out], row by row of the input column [statement]: the
    column [Tags] holds the joined matched categories, and the column of
    each category holds whether the category is matched. *)
Definition tags_and_flags (d : keyword_dict) (statement : column) (out : dataframe)
  : Prop :=
  (exists tags, dict_get "Tags" out = Some tags /\
                Forall2 (is_tags_of d) statement tags) /\
  (forall c, In c (keys d) ->
     exists flags, dict_get c out = Some flags /\
                   Forall2 (is_flag_of d c) statement flags).

(** A category called [Tags]; a category called [Statement] followed by
    another one; a frame with one record. *)
Definition tags_named_dict : keyword_dict := [("Tags", strs ["sale"])].

Definition statement_named_dict : keyword_dict :=
  [("Statement", strs ["sale"]); ("affirmative", strs ["true"])].

Definition sale_frame : dataframe := [("Statement", [VStr "Summer sale"])].

(** C4, as stated, fails in two ways.  With a category called [Tags] the
    column of flags of that category replaces the joined tags.  With a
    category called [Statement] the text column is overwritten by flags, and
    the categories after it are matched against [True] and [False]. *)
Lemma category_named_like_a_column :
  (exists out, classify tags_named_dict sale_frame = Complete out /\
               ~ tags_and_flags tags_named_dict [VStr "Summer sale"] out) /\
  (exists out, classify statement_named_dict sale_frame = Complete out /\
               ~ tags_and_flags statement_named_dict [VStr "Summer sale"] out).
Proof.
  split.
  - exists [("Statement", [VStr "Summer sale"]); ("Tags", [VBool true])].
    split; [reflexivity|]. intros [(tags & Ht & HF) _].
    injection Ht as <-. inversion HF as [|? ? ? ? (l & _ & E) _]; subst. discriminate.
  - exists [("Statement", [VBool true]); ("Tags", [VStr "Statement"]);
            ("affirmative", [VBool true])].
    split; [reflexivity|]. intros [_ Hflags].
    destruct (Hflags "affirmative") as (flags & Hf & HF); [right; now left|].
    injection Hf as <-.
    inversion HF as [|? ? ? ? (l & b & Hl & Hb & Hiff) _]; subst.
    injection Hl as <-. injection Hb as <-.
    destruct (proj1 Hiff eq_refl) as [E | []]. discriminate.
Qed.

(** C4, amended: when no category is called [Tags] or [Statement] (and the
    keywords are strings), the run completes, the column [Tags] holds for
    each record the matched categories joined by a comma and a space, in
    dictionary order, and the column of each category holds [True] exactly
    for the records that match the category. *)
Theorem classify_tags_and_flags (d : keyword_dict) (df : dataframe) (statement : column) :
  str_keywords d ->
  dict_get "Statement" df = Some statement ->
  ~ In "Statement" (keys d) ->
  ~ In "Tags" (keys d) ->
  exists out, classify d df = Complete out /\ tags_and_flags d statement out.
Proof.
  intros Hd Hdf Hs Ht.
  destruct (annotate_columns d Hd df statement Hdf Hs) as (out & E & _ & Htags & Hflags).
  exists out. split; [now apply (classify_complete d df out statement)|]. split.
  - exists (map (tag_cell d) statement). split; [now apply Htags|].
    apply Forall2_map_graph. intros x. exists (matched (lower (py_str x)) d).
    split; [now apply get_tags_strs | reflexivity].
  - intros c Hc. exists (map (flag_cell d c) statement). split; [now apply Hflags|].
    apply Forall2_map_graph. intros x.
    exists (matched (lower (py_str x)) d), (mem c (matched (lower (py_str x)) d)).
    split; [now apply get_tags_strs|]. split; [reflexivity | apply mem_In].
Qed.

Definition review_frame : dataframe :=
  [ ("id", [VInt 1; VInt 2]);
    ("Statement", [VStr "Hurry, VIP only"; VStr "The weather is nice today"]) ].

Lemma classify_tags_and_flags_witness :
  exists out,
    classify DEFAULT_DICTIONARIES review_frame = Complete out /\
    tags_and_flags DEFAULT_DICTIONARIES
      [VStr "Hurry, VIP only"; VStr "The weather is nice today"] out.
Proof.
  apply (classify_tags_and_flags DEFAULT_DICTIONARIES review_frame).
  - apply str_keywordsb_ok. reflexivity.
  - reflexivity.
  - simpl. intros [H | [H | []]]; discriminate.
  - simpl. intros [H | [H | []]]; discriminate.
Defined.

(** The run on the sample frame: a record with two matches and a record
    with none. *)
Example classify_review_frame :
  classify DEFAULT_DICTIONARIES review_frame =
  Complete
    [ ("id", [VInt 1; VInt 2]);
      ("Statement", [VStr "Hurry, VIP only"; VStr "The weather is nice today"]);
      ("Tags", [VStr "urgency_marketing, exclusive_marketing"; VStr ""]);
      ("urgency_marketing", [VBool true; VBool false]);
      ("exclusive_marketing", [VBool true; VBool false]) ].
Proof. reflexivity. Qed.

(* ================================================================= *)
(** ** The columns of the output *)

(** [out] is [df] followed by new columns: [Tags], then one per category in
    dictionary order. *)
Definition frame_extended (d : keyword_dict) (df out : dataframe) : Prop :=
  exists added, out = df ++ added /\ keys added = "Tags" :: keys d.

(** A frame that has a column [Tags]; a frame that has a column with the
    name of a category. *)
Definition tagged_frame : dataframe :=
  [("Statement", [VStr "Summer sale"]); ("Tags", [VStr "reviewed"])].

Definition scored_frame : dataframe :=
  [("urgency_marketing", [VInt 3]); ("Statement", [VStr "Hurry"])].

(** C5, as stated, fails in three ways: a column [Tags] of the input is
    overwritten; a column of the input with the name of a category is
    overwritten; with a category called [Tags] there is one column for the
    tags and that category, not two. *)
Lemma column_overwritten :
  (exists out, classify DEFAULT_DICTIONARIES tagged_frame = Complete out /\
               ~ frame_extended DEFAULT_DICTIONARIES tagged_frame out) /\
  (exists out, classify DEFAULT_DICTIONARIES scored_frame = Complete out /\
               ~ frame_extended DEFAULT_DICTIONARIES scored_frame out) /\
  (exists out, classify tags_named_dict sale_frame = Complete out /\
               ~ frame_extended tags_named_dict sale_frame out).
Proof.
  split; [|split].
  - exists [("Statement", [VStr "Summer sale"]); ("Tags", [VStr ""]);
            ("urgency_marketing", [VBool false]); ("exclusive_marketing", [VBool false])].
    split; [reflexivity|]. intros (added & E & _). discriminate.
  - exists [("urgency_marketing", [VBool true]); ("Statement", [VStr "Hurry"]);
            ("Tags", [VStr "urgency_marketing"]); ("exclusive_marketing", [VBool false])].
    split; [reflexivity|]. intros (added & E & _). discriminate.
  - exists [("Statement", [VStr "Summer sale"]); ("Tags", [VBool true])].
    split; [reflexivity|]. intros (added & E & K).
    injection E as <-. discriminate.
Qed.

(** C5, amended: when the input has no column called [Tags] or called like
    a category, and no category is called [Tags] (category names are
    distinct, keywords are strings), the output is the input, every column
    unchanged and in its place, followed by [Tags] and then one column per
    category in dictionary order. *)
Theorem classify_extends_frame (d : keyword_dict) (df : dataframe) (statement : column) :
  str_keywords d ->
  NoDup (keys d) ->
  dict_get "Statement" df = Some statement ->
  ~ In "Tags" (columns df) ->
  ~ In "Tags" (keys d) ->
  (forall c, In c (keys d) -> ~ In c (columns df)) ->
  exists out, classify d df = Complete out /\ frame_extended d df out.
Proof.
  intros Hd Hn Hdf Ht Htd Hfresh.
  exists (df ++ ("Tags", map (tag_cell d) statement)
             :: map (flag_column d statement) (keys d)).
  split.
  - apply (classify_complete d df _ statement Hdf).
    now apply annotate_fresh.
  - eexists. split; [reflexivity|]. unfold keys. cbn [map fst]. f_equal.
    rewrite map_map. cbn [fst flag_column]. now rewrite map_id.
Qed.

Lemma classify_extends_frame_witness :
  exists out, classify DEFAULT_DICTIONARIES review_frame = Complete out /\
              frame_extended DEFAULT_DICTIONARIES review_frame out.
Proof.
  apply (classify_extends_frame DEFAULT_DICTIONARIES review_frame
           [VStr "Hurry, VIP only"; VStr "The weather is nice today"]).
  - apply str_keywordsb_ok. reflexivity.
  - constructor; [simpl; intros [H | []]; discriminate|].
    constructor; [intros [] | constructor].
  - reflexivity.
  - simpl. intros [H | [H | []]]; discriminate.
  - simpl. intros [H | [H | []]]; discriminate.
  - simpl. intros c [<- | [<- | []]] [H | [H | []]]; discriminate.
Defined.

(* ================================================================= *)
(** ** A frame without the text column *)

(** C6: on a frame without a column [Statement] the run stops with the
    error message before anything is classified: whatever the dictionaries
    are, there is no output frame and no call of [get_tags] could raise. *)
Theorem classify_without_statement (d : keyword_dict) (df : dataframe) :
  ~ In "Statement" (columns df) ->
  classify d df = Stopped "The uploaded file must contain a 'Statement' column.".
Proof. intros H. unfold classify. apply mem_not_In in H. now rewrite H. Qed.

Definition id_frame : dataframe := [("id", [VInt 1; VInt 2]); ("statement", [VStr "Hurry"; VStr "vip"])].

Lemma classify_without_statement_witness :
  classify DEFAULT_DICTIONARIES id_frame =
  Stopped "The uploaded file must contain a 'Statement' column.".
Proof.
  apply (classify_without_statement DEFAULT_DICTIONARIES id_frame).
  simpl. intros [H | [H | []]]; discriminate.
Defined.

(** With keywords that are not strings the run on a frame with the column
    raises; without the column it stops on the missing column first. *)
Example classify_check_comes_first :
  classify [("numbers", [AInt 1])] sale_frame = Uncaught TypeError /\
  classify [("numbers", [AInt 1])] id_frame =
  Stopped "The uploaded file must contain a 'Statement' column.".
Proof. split; reflexivity. Qed.

(* ================================================================= *)
(** ** Running the classification again on its output *)

(** The frame the run on [review_frame] ends with. *)
Definition review_output : dataframe :=
  [ ("id", [VInt 1; VInt 2]);
    ("Statement", [VStr "Hurry, VIP only"; VStr "The weather is nice today"]);
    ("Tags", [VStr "urgency_marketing, exclusive_marketing"; VStr ""]);
    ("urgency_marketing", [VBool true; VBool false]);
    ("exclusive_marketing", [VBool true; VBool false]) ].

(** A run is a series of column assignments [df[name] = col]. *)
Definition assign_all (l : dataframe) (df : dataframe) : dataframe :=
  fold_left (fun acc kv => dict_set (fst kv) (snd kv) acc) l df.

Section Assignments.
Context {V : Type}.
Implicit Types (d : list (string * V)) (k : string) (v w : V).

(** A second assignment to a key hides the first. *)
Lemma dict_set_twice k v w d : dict_set k v (dict_set k w d) = dict_set k v d.
Proof.
  induction d as [|[k' v'] r IH]; simpl.
  - now rewrite String.eqb_refl.
  - destruct (String.eqb_spec k' k) as [->|Hne]; simpl.
    + now rewrite String.eqb_refl.
    + apply String.eqb_neq in Hne. now rewrite Hne, IH.
Qed.

(** Assignments to two keys, the first of which is there, can be swapped. *)
Lemma dict_set_comm k k1 v w d :
  k1 <> k -> In k1 (keys d) ->
  dict_set k1 v (dict_set k w d) = dict_set k w (dict_set k1 v d).
Proof.
  intros Hne. induction d as [|[k' v'] r IH]; simpl; [intros []|].
  intros Hin.
  destruct (String.eqb_spec k' k) as [Ek|Hk]; destruct (String.eqb_spec k' k1) as [E|Hk1];
    simpl.
  - congruence.
  - subst k'. apply String.eqb_neq in Hk1. rewrite Hk1, String.eqb_refl. reflexivity.
  - subst k'. apply String.eqb_neq in Hk. rewrite Hk, String.eqb_refl. reflexivity.
  - destruct Hin as [Hin | Hin]; [congruence|].
    apply String.eqb_neq in Hk, Hk1. rewrite Hk, Hk1. now rewrite IH.
Qed.

Lemma In_keys_dict_set_old n k v d : In n (keys d) -> In n (keys (dict_set k v d)).
Proof.
  induction d as [|[k' v'] r IH]; simpl; [intros []|].
  destruct (String.eqb k' k); simpl; tauto.
Qed.

Lemma In_keys_dict_set_new k v d : In k (keys (dict_set k v d)).
Proof. apply dict_get_Some_keys with (v := v). apply dict_get_set_same. Qed.

End Assignments.

Lemma assign_all_snoc (l : dataframe) (k : string) (col : column) (df : dataframe) :
  assign_all (l ++ [(k, col)]) df = dict_set k col (assign_all l df).
Proof. unfold assign_all. now rewrite fold_left_app. Qed.

Lemma assign_all_keys_old (l : dataframe) :
  forall df n, In n (keys df) -> In n (keys (assign_all l df)).
Proof.
  induction l as [|[k col] r IH]; simpl; intros df n H; [exact H|].
  apply IH. now apply In_keys_dict_set_old.
Qed.

Lemma assign_all_keys_new (l : dataframe) :
  forall df n, In n (keys l) -> In n (keys (assign_all l df)).
Proof.
  induction l as [|[k col] r IH]; simpl; intros df n; [intros []|].
  intros [<- | H]; [|now apply IH].
  apply assign_all_keys_old. apply In_keys_dict_set_new.
Qed.

Lemma assign_all_get_other (l : dataframe) (n : string) :
  ~ In n (keys l) -> forall df, dict_get n (assign_all l df) = dict_get n df.
Proof.
  induction l as [|[k col] r IH]; simpl; intros Hn df; [reflexivity|].
  rewrite IH by tauto. apply dict_get_set_other. intros ->. apply Hn. now left.
Qed.

(** An assignment to [k] before a series is hidden by one after it, when
    the keys of the series are in the frame. *)
Lemma assign_all_absorb (k : string) (v w : column) (l : dataframe) :
  forall df,
  (forall n, In n (keys l) -> In n (keys df)) ->
  dict_set k v (assign_all l (dict_set k w df)) = dict_set k v (assign_all l df).
Proof.
  induction l as [|[k1 v1] r IH]; simpl; intros df Hdf.
  - apply dict_set_twice.
  - destruct (string_dec k1 k) as [->|Hne].
    + now rewrite dict_set_twice.
    + rewrite dict_set_comm by (auto using String.eqb_neq).
      apply IH. intros n Hn. apply In_keys_dict_set_old. apply Hdf. now right.
Qed.

(** Making the same series of assignments again changes nothing. *)
Lemma assign_all_idem (l : dataframe) (df : dataframe) :
  assign_all l (assign_all l df) = assign_all l df.
Proof.
  induction l as [|[k col] l IH] using rev_ind; [reflexivity|].
  rewrite !assign_all_snoc. rewrite assign_all_absorb.
  - now rewrite IH.
  - intros n Hn. now apply assign_all_keys_new.
Qed.

(** The columns of flags computed from the text column [statement]. *)
Definition flags_from (d : keyword_dict) (statement : column) (l : dataframe) : Prop :=
  Forall (fun kv => apply (flag_of d (fst kv)) statement = Ok (snd kv)) l.

(** A loop that returns has made one assignment per category, each column
    computed from the text column, which it left alone. *)
Lemma flag_loop_assigns (d : keyword_dict) (statement : column) (cs : list string) :
  ~ In "Statement" cs ->
  forall cur out,
  dict_get "Statement" cur = Some statement ->
  foldM (flag_step d) cs cur = Ok out ->
  exists l, keys l = cs /\ flags_from d statement l /\ out = assign_all l cur.
Proof.
  induction cs as [|c r IH]; cbn [foldM]; intros Hs cur out Hcur H.
  - injection H as <-. exists []. repeat split. constructor.
  - unfold flag_step at 1, df_getitem, df_setitem in H. rewrite Hcur in H. cbn [bind] in H.
    destruct (apply (flag_of d c) statement) as [flags|] eqn:E; cbn [bind] in H;
      [|discriminate].
    destruct (IH (fun Hr => Hs (or_intror Hr)) (dict_set c flags cur) out) as (l & Hk & Hf & ->).
    + rewrite dict_get_set_other; [exact Hcur|]. intros E'. apply Hs. now left.
    + exact H.
    + exists ((c, flags) :: l). split; [simpl; now rewrite Hk|].
      split; [now constructor | reflexivity].
Qed.

(** The same assignments are made on any frame with that text column. *)
Lemma flag_loop_replays (d : keyword_dict) (statement : column) (l : dataframe) :
  ~ In "Statement" (keys l) ->
  flags_from d statement l ->
  forall cur,
  dict_get "Statement" cur = Some statement ->
  foldM (flag_step d) (keys l) cur = Ok (assign_all l cur).
Proof.
  induction l as [|[c flags] r IH]; intros Hs Hf cur Hcur; cbn [keys map fst foldM];
    [reflexivity|].
  inversion Hf as [|? ? Hc Hr]; subst. cbn [fst snd] in Hc.
  unfold flag_step at 1, df_getitem, df_setitem. rewrite Hcur. cbn [bind].
  rewrite Hc. cbn [bind]. simpl in Hs.
  apply (IH (fun H => Hs (or_intror H)) Hr).
  rewrite dict_get_set_other; [exact Hcur|]. intros E. apply Hs. now left.
Qed.

(** What a run that completes has done. *)
Lemma classify_assigns (d : keyword_dict) (df out : dataframe) :
  ~ In "Statement" (keys d) ->
  classify d df = Complete out ->
  exists statement tags l,
    dict_get "Statement" df = Some statement /\
    apply (tags_of d) statement = Ok tags /\
    keys l = keys d /\ flags_from d statement l /\
    out = assign_all (("Tags", tags) :: l) df.
Proof.
  intros Hs. unfold classify.
  destruct (mem "Statement" (columns df)); simpl; [|discriminate].
  destruct (annotate d df) as [out'|] eqn:E; [|discriminate]. intros [= <-].
  unfold annotate, df_getitem, df_setitem in E.
  destruct (dict_get "Statement" df) as [st|] eqn:Hst; cbn [bind] in E; [|discriminate].
  destruct (apply (tags_of d) st) as [tags|] eqn:Et; cbn [bind] in E; [|discriminate].
  destruct (flag_loop_assigns d st (keys d) Hs (dict_set "Tags" tags df) out')
    as (l & Hk & Hf & ->).
  - now rewrite dict_get_set_other.
  - exact E.
  - exists st, tags, l. repeat split; assumption.
Qed.

(** Running on the output of a run that completed (the annotated frame
    uploaded again) gives that output back, when no category is called
    [Statement]. *)
Lemma classify_output_fixed (d : keyword_dict) (df out : dataframe) :
  ~ In "Statement" (keys d) ->
  classify d df = Complete out ->
  classify d out = Complete out.
Proof.
  intros Hs H.
  destruct (classify_assigns d df out Hs H) as (st & tags & l & Hst & Ht & Hk & Hf & ->).
  assert (Hl : ~ In "Statement" (keys (("Tags", tags) :: l))).
  { simpl. rewrite Hk. intros [E | E]; [discriminate | contradiction]. }
  assert (Hout : dict_get "Statement" (assign_all (("Tags", tags) :: l) df) = Some st).
  { now rewrite assign_all_get_other. }
  apply (classify_complete d _ _ st Hout).
  unfold annotate, df_getitem, df_setitem. rewrite Hout. cbn [bind]. rewrite Ht. cbn [bind].
  rewrite <- Hk. rewrite (flag_loop_replays d st l).
  - f_equal. apply (assign_all_idem (("Tags", tags) :: l) df).
  - now rewrite Hk.
  - exact Hf.
  - now rewrite dict_get_set_other.
Qed.

(** C8, as stated, fails: with a category called [Statement] the first run
    overwrites the text column with flags, and a second run on the
    annotated frame computes another [Tags] column and other flags. *)
Lemma second_run_differs :
  exists out1 out2,
    classify statement_named_dict sale_frame = Complete out1 /\
    classify statement_named_dict out1 = Complete out2 /\
    dict_get "Tags" out2 <> dict_get "Tags" out1 /\
    dict_get "affirmative" out2 <> dict_get "affirmative" out1.
Proof.
  exists [("Statement", [VBool true]); ("Tags", [VStr "Statement"]);
          ("affirmative", [VBool true])],
         [("Statement", [VBool false]); ("Tags", [VStr "affirmative"]);
          ("affirmative", [VBool false])].
  repeat split; try reflexivity; discriminate.
Qed.

(** C8, amended: when no category is called [Statement] (and the keywords
    are strings), the run on a frame with the text column completes, and a
    second run on the frame it has annotated completes with the very same
    frame: the same [Tags] column and the same column of flags for every
    category, all of which are there. *)
Theorem classify_idempotent (d : keyword_dict) (df : dataframe) (statement : column) :
  str_keywords d ->
  dict_get "Statement" df = Some statement ->
  ~ In "Statement" (keys d) ->
  exists out,
    classify d df = Complete out /\
    classify d out = Complete out /\
    dict_get "Tags" out <> None /\
    forall c, In c (keys d) -> dict_get c out <> None.
Proof.
  intros Hd Hdf Hs.
  destruct (annotate_columns d Hd df statement Hdf Hs) as (out & E & _ & Htags & Hflags).
  pose proof (classify_complete d df out statement Hdf E) as Hc.
  exists out. split; [exact Hc|]. split; [now apply (classify_output_fixed d df)|].
  split.
  - destruct (in_dec string_dec "Tags" (keys d)) as [Hin | Hin].
    + now rewrite (Hflags "Tags" Hin).
    + now rewrite (Htags Hin).
  - intros c Hin. now rewrite (Hflags c Hin).
Qed.

Lemma classify_idempotent_witness :
  exists out,
    classify tags_named_dict sale_frame = Complete out /\
    classify tags_named_dict out = Complete out /\
    dict_get "Tags" out <> None /\
    forall c, In c (keys tags_named_dict) -> dict_get c out <> None.
Proof.
  apply (classify_idempotent tags_named_dict sale_frame [VStr "Summer sale"]).
  - apply str_keywordsb_ok. reflexivity.
  - reflexivity.
  - simpl. intros [H | []]. discriminate.
Defined.

(** The two runs on the sample frame. *)
Example classify_review_twice :
  classify DEFAULT_DICTIONARIES review_frame = Complete review_output /\
  classify DEFAULT_DICTIONARIES review_output = Complete review_output.
Proof. split; reflexivity. Qed.

(* ================================================================= *)
(** ** The built-in dictionaries *)

Lemma default_names :
  ~ In "Statement" (keys DEFAULT_DICTIONARIES) /\ ~ In "Tags" (keys DEFAULT_DICTIONARIES).
Proof. split; simpl; intros [H | [H | []]]; discriminate. Qed.

(** A text with [hurry] and [vip] in it matches both built-in categories. *)
Lemma matched_hurry_vip (lo : string) :
  Substring "hurry" lo -> Substring "vip" lo ->
  matched lo DEFAULT_DICTIONARIES = ["urgency_marketing"; "exclusive_marketing"].
Proof.
  intros Hh Hv.
  assert (H1 : hit lo urgency_words = true).
  { apply hit_spec. exists "hurry". split; [|exact Hh].
    apply in_map. simpl. tauto. }
  assert (H2 : hit lo exclusive_words = true).
  { apply hit_spec. exists "vip". split; [|exact Hv].
    apply in_map. simpl. tauto. }
  unfold matched, DEFAULT_DICTIONARIES. cbn [filter snd]. now rewrite H1, H2.
Qed.

(** C9: under the built-in dictionaries, an input whose text contains
    [hurry] and [vip], in any letter case, is tagged with both categories,
    [urgency_marketing] first; its cell in the column [Tags] of the output
    is "urgency_marketing, exclusive_marketing". *)
Theorem default_hurry_vip (x : value) :
  contains_ci "hurry" (py_str x) ->
  contains_ci "vip" (py_str x) ->
  get_tags DEFAULT_DICTIONARIES x = Ok ["urgency_marketing"; "exclusive_marketing"] /\
  tags_of DEFAULT_DICTIONARIES x = Ok (VStr "urgency_marketing, exclusive_marketing") /\
  forall df statement i,
    dict_get "Statement" df = Some statement ->
    nth_error statement i = Some x ->
    exists out tags,
      classify DEFAULT_DICTIONARIES df = Complete out /\
      dict_get "Tags" out = Some tags /\
      nth_error tags i = Some (VStr "urgency_marketing, exclusive_marketing").
Proof.
  intros Hh Hv. apply contains_ci_lower in Hh, Hv.
  change (lower "hurry") with "hurry" in Hh. change (lower "vip") with "vip" in Hv.
  pose proof (matched_hurry_vip (lower (py_str x)) Hh Hv) as Hm.
  assert (Hg : get_tags DEFAULT_DICTIONARIES x =
               Ok ["urgency_marketing"; "exclusive_marketing"]).
  { rewrite (get_tags_strs _ x str_keywords_default). now rewrite Hm. }
  split; [exact Hg|]. split; [unfold tags_of; now rewrite Hg|].
  intros df statement i Hdf Hi.
  destruct default_names as [Hs Ht].
  destruct (annotate_columns DEFAULT_DICTIONARIES str_keywords_default df statement Hdf Hs)
    as (out & E & _ & Htags & _).
  exists out, (map (tag_cell DEFAULT_DICTIONARIES) statement).
  split; [now apply (classify_complete _ df out statement)|].
  split; [now apply Htags|].
  rewrite (map_nth_error _ _ _ Hi). unfold tag_cell. now rewrite Hm.
Qed.

Lemma default_hurry_vip_witness :
  get_tags DEFAULT_DICTIONARIES (VStr "Hurry, VIP only") =
  Ok ["urgency_marketing"; "exclusive_marketing"] /\
  tags_of DEFAULT_DICTIONARIES (VStr "Hurry, VIP only") =
  Ok (VStr "urgency_marketing, exclusive_marketing") /\
  forall df statement i,
    dict_get "Statement" df = Some statement ->
    nth_error statement i = Some (VStr "Hurry, VIP only") ->
    exists out tags,
      classify DEFAULT_DICTIONARIES df = Complete out /\
      dict_get "Tags" out = Some tags /\
      nth_error tags i = Some (VStr "urgency_marketing, exclusive_marketing").
Proof.
  apply (default_hurry_vip (VStr "Hurry, VIP only")).
  - exists "", "Hurry", ", VIP only". split; reflexivity.
  - exists "Hurry, ", "VIP", " only". split; reflexivity.
Defined.

(* ================================================================= *)
(** ** More about [get_tags]: what it returns and how it fails *)

(** When [any] returns, it returns whether a keyword occurs. *)
Lemma any_in_ok (lo : string) (ws : list atom) (b : bool) :
  any_in lo ws = Ok b -> b = hit lo ws.
Proof.
  unfold hit. induction ws as [|a r IH]; simpl.
  - now intros [= <-].
  - destruct a as [| | | |w]; try discriminate. simpl.
    destruct (str_in w lo); [now intros [= <-] | exact IH].
Qed.

(** [any] raises only [TypeError], on an element that is not a string. *)
Lemma any_in_raise (lo : string) (ws : list atom) (e : exn) :
  any_in lo ws = Raise e -> e = TypeError /\ exists a, In a ws /\ is_str a = false.
Proof.
  induction ws as [|a r IH]; simpl; [discriminate|].
  destruct a as [| | | |w];
    try (intros [= <-]; split; [reflexivity | eexists; split; [left; reflexivity | reflexivity]]).
  destruct (str_in w lo); [discriminate|].
  intros H. destruct (IH H) as (He & a & Ha & Hs).
  split; [exact He | exists a; split; [now right | exact Hs]].
Qed.

Lemma get_tags_loop_ok (lo : string) (d : keyword_dict) :
  forall acc tags, get_tags_loop lo d acc = Ok tags -> tags = acc ++ matched lo d.
Proof.
  induction d as [|[c ws] r IH]; simpl; intros acc tags H.
  - injection H as <-. now rewrite app_nil_r.
  - destruct (any_in lo ws) as [b|e] eqn:E; simpl in H; [|discriminate].
    apply any_in_ok in E. subst b. rewrite (IH _ _ H).
    unfold matched. simpl. destruct (hit lo ws); simpl; [|reflexivity].
    now rewrite <- app_assoc.
Qed.

Lemma get_tags_loop_raise (lo : string) (d : keyword_dict) (e : exn) :
  forall acc, get_tags_loop lo d acc = Raise e ->
  e = TypeError /\ exists c ws a, In (c, ws) d /\ In a ws /\ is_str a = false.
Proof.
  induction d as [|[c ws] r IH]; simpl; intros acc H; [discriminate|].
  destruct (any_in lo ws) as [b|e'] eqn:E; simpl in H.
  - destruct (IH _ H) as (He & c' & ws' & a & Hin & Ha & Hs).
    split; [exact He|]. exists c', ws', a. split; [now right | now split].
  - injection H as ->. destruct (any_in_raise lo ws e E) as (He & a & Ha & Hs).
    split; [exact He|]. exists c, ws, a. split; [now left | now split].
Qed.

Lemma NoDup_keys_filter {V : Type} (f : string * V -> bool) (d : list (string * V)) :
  NoDup (keys d) -> NoDup (keys (filter f d)).
Proof.
  induction d as [|[k v] r IH]; simpl; intros H; [constructor|].
  inversion H as [|? ? Hk Hr]; subst.
  destruct (f (k, v)); simpl; [|now apply IH].
  constructor; [|now apply IH].
  intros Hin. apply Hk. unfold keys in *. apply in_map_iff in Hin.
  destruct Hin as ([k' v'] & Hfst & Hin). apply filter_In in Hin.
  simpl in Hfst. subst k'. apply in_map_iff. exists (k, v'). split; [reflexivity | tauto].
Qed.

(** X1: whenever [get_tags] returns, the list is the category names of the
    dictionary, in dictionary order, cut down to the categories with a
    keyword in the lowercased text; with distinct names no category is
    listed twice.  No assumption on the keywords is needed. *)
Theorem get_tags_in_dictionary_order (d : keyword_dict) (x : value) (tags : list string) :
  get_tags d x = Ok tags ->
  tags = keys (filter (fun kv => hit (lower (py_str x)) (snd kv)) d) /\
  (NoDup (keys d) -> NoDup tags).
Proof.
  unfold get_tags. intros H. apply get_tags_loop_ok in H. simpl in H. subst tags.
  split; [reflexivity|]. apply NoDup_keys_filter.
Qed.

Lemma get_tags_in_dictionary_order_witness :
  ["urgency_marketing"; "exclusive_marketing"] =
  keys (filter (fun kv => hit (lower (py_str (VStr "Hurry, VIP only"))) (snd kv))
               DEFAULT_DICTIONARIES) /\
  (NoDup (keys DEFAULT_DICTIONARIES) ->
   NoDup ["urgency_marketing"; "exclusive_marketing"]).
Proof.
  apply (get_tags_in_dictionary_order DEFAULT_DICTIONARIES (VStr "Hurry, VIP only")).
  reflexivity.
Defined.

(** X2: [get_tags] raises nothing but [TypeError], and only when some
    category has a keyword that is not a string. *)
Theorem get_tags_raises_on_non_string (d : keyword_dict) (x : value) (e : exn) :
  get_tags d x = Raise e ->
  e = TypeError /\ exists c ws a, In (c, ws) d /\ In a ws /\ is_str a = false.
Proof. unfold get_tags. apply get_tags_loop_raise. Qed.

Definition numbers_dict : keyword_dict := [("numbers", [AStr "one"; AInt 1])].

Lemma get_tags_raises_on_non_string_witness :
  TypeError = TypeError /\
  exists c ws a, In (c, ws) numbers_dict /\ In a ws /\ is_str a = false.
Proof.
  apply (get_tags_raises_on_non_string numbers_dict (VStr "two")).
  reflexivity.
Defined.

Lemma Substring_trans (w t u : string) : Substring w t -> Substring t u -> Substring w u.
Proof.
  intros (a & b & ->) (a' & b' & ->).
  exists (a' ++ a)%string, (b ++ b')%string.
  induction a' as [|ch a' IH]; simpl.
  - induction a as [|ch a IH]; simpl; [|now rewrite IH].
    induction w as [|ch w IH]; simpl; [reflexivity | now rewrite IH].
  - now rewrite IH.
Qed.

(** X3: with string keywords, an input whose lowercased text contains the
    lowercased text of another input gets every tag the other gets; so,
    for plain ASCII text, text put around a text takes no tag away. *)
Theorem get_tags_monotone (d : keyword_dict) (x y : value) :
  str_keywords d ->
  Substring (lower (py_str x)) (lower (py_str y)) ->
  exists tags tags',
    get_tags d x = Ok tags /\ get_tags d y = Ok tags' /\ incl tags tags'.
Proof.
  intros Hd Hxy. eexists. eexists.
  split; [now apply get_tags_strs|]. split; [now apply get_tags_strs|].
  intros c Hc. apply matched_spec in Hc. destruct Hc as (ws & Hin & Hh).
  apply matched_spec. exists ws. split; [exact Hin|].
  apply hit_spec in Hh. destruct Hh as (w & Hw & Hs). apply hit_spec.
  exists w. split; [exact Hw|]. exact (Substring_trans _ _ _ Hs Hxy).
Qed.

Lemma get_tags_monotone_witness :
  exists tags tags',
    get_tags DEFAULT_DICTIONARIES (VStr "VIP") = Ok tags /\
    get_tags DEFAULT_DICTIONARIES (VStr "Hurry, VIP only") = Ok tags' /\
    incl tags tags'.
Proof.
  apply (get_tags_monotone DEFAULT_DICTIONARIES (VStr "VIP") (VStr "Hurry, VIP only")).
  - apply str_keywordsb_ok. reflexivity.
  - exists "hurry, ", " only". reflexivity.
Defined.

(** Every keyword is written in small letters. *)
Definition lowercase_keywords (d : keyword_dict) : Prop :=
  forall c ws w, In (c, ws) d -> In (AStr w) ws -> lower w = w.

Definition lowercase_keywordsb (d : keyword_dict) : bool :=
  forallb (fun kv => forallb (fun a => match a with
                                       | AStr w => String.eqb (lower w) w
                                       | _ => true
                                       end) (snd kv)) d.

Lemma lowercase_keywordsb_ok (d : keyword_dict) :
  lowercase_keywordsb d = true -> lowercase_keywords d.
Proof.
  unfold lowercase_keywordsb. rewrite forallb_forall. intros H c ws w Hin Hw.
  specialize (H _ Hin). simpl in H. rewrite forallb_forall in H.
  specialize (H _ Hw). simpl in H. now apply String.eqb_eq.
Qed.

(** X4: when the stored keywords are strings in small letters, as the
    built-in ones are, matching ignores the letter case of the keyword as
    well: a category is returned exactly when the lowercase form of one of
    its keywords occurs in the lowercased text. *)
Theorem get_tags_lowercase_keywords (d : keyword_dict) (x : value) (c : string) :
  str_keywords d ->
  lowercase_keywords d ->
  exists tags, get_tags d x = Ok tags /\ (In c tags <-> keyword_occurs_ci d x c).
Proof.
  intros Hd Hl. exists (matched (lower (py_str x)) d).
  split; [now apply get_tags_strs|]. rewrite matched_spec. split.
  - intros (ws & Hin & Hh). apply hit_spec in Hh. destruct Hh as (w & Hw & Hs).
    exists ws, w. rewrite (Hl c ws w Hin Hw). auto.
  - intros (ws & w & Hin & Hw & Hs). exists ws. split; [exact Hin|].
    apply hit_spec. exists w. split; [exact Hw|]. now rewrite <- (Hl c ws w Hin Hw).
Qed.

Lemma get_tags_lowercase_keywords_witness :
  exists tags,
    get_tags DEFAULT_DICTIONARIES (VStr "Members ONLY") = Ok tags /\
    (In "exclusive_marketing" tags <->
     keyword_occurs_ci DEFAULT_DICTIONARIES (VStr "Members ONLY") "exclusive_marketing").
Proof.
  apply (get_tags_lowercase_keywords DEFAULT_DICTIONARIES (VStr "Members ONLY")
           "exclusive_marketing").
  - apply str_keywordsb_ok. reflexivity.
  - apply lowercase_keywordsb_ok. reflexivity.
Defined.

(* ================================================================= *)
(** ** More about the "Save Changes" handler *)

(** The values [hash] accepts, and the values [set] accepts: a string, a
    dict, or a list of hashable values. *)
Definition scalar (v : json) : bool :=
  match v with
  | JArr _ | JObj _ => false
  | _ => true
  end.

Definition settable (v : json) : bool :=
  match v with
  | JArr elems => forallb scalar elems
  | JStr _ | JObj _ => true
  | JNull | JBool _ | JInt _ | JFloat _ => false
  end.

(** The text parses to a mapping each of whose values [set] accepts. *)
Definition well_formed_config (v : json) : Prop :=
  exists members, v = JObj members /\
                  forall k val, In (k, val) members -> settable val = true.

Lemma mapM_hashable_scalars (elems : list json) :
  forallb scalar elems = true -> exists atoms, mapM hashable elems = Ok atoms.
Proof.
  induction elems as [|e r IH]; simpl; [now exists []|].
  intros H. apply andb_true_iff in H. destruct H as [He Hr].
  destruct (IH Hr) as [atoms Ha]. rewrite Ha.
  destruct e; try discriminate; simpl; eauto.
Qed.

Lemma mapM_hashable_unhashable (elems : list json) :
  forallb scalar elems = false -> mapM hashable elems = Raise TypeError.
Proof.
  induction elems as [|e r IH]; simpl; [discriminate|].
  intros H. apply andb_false_iff in H.
  destruct e; simpl; try reflexivity;
    (destruct H as [H | H]; [discriminate | now rewrite (IH H)]).
Qed.

Lemma set_of_settable (v : json) :
  settable v = true -> exists s, set_of v = Ok s.
Proof.
  destruct v as [| | | |s|elems|members]; simpl; try discriminate; intros H; unfold set_of; simpl.
  - rewrite <- (map_map (fun c => String c EmptyString) JStr).
    rewrite mapM_hashable_strs. simpl. eauto.
  - destruct (mapM_hashable_scalars elems H) as [atoms ->]. simpl. eauto.
  - rewrite <- (map_map fst JStr). rewrite mapM_hashable_strs. simpl. eauto.
Qed.

Lemma set_of_not_settable (v : json) :
  settable v = false -> set_of v = Raise TypeError.
Proof.
  destruct v as [| | | |s|elems|members]; simpl; try discriminate; try reflexivity.
  intros H. unfold set_of. simpl. now rewrite mapM_hashable_unhashable.
Qed.

Lemma clean_loop_settable (members : list (string * json)) :
  (forall k val, In (k, val) members -> settable val = true) ->
  forall acc, exists cleaned, foldM clean_step members acc = Ok cleaned.
Proof.
  induction members as [|[k v] r IH]; intros H acc; cbn [foldM]; [eauto|].
  unfold clean_step at 1. cbn [fst snd].
  destruct (set_of_settable v (H k v (or_introl eq_refl))) as [s ->]. cbn [bind].
  apply IH. intros k' v' Hin. apply (H k' v'). now right.
Qed.

(** X5: the handler stores the edited dictionaries exactly when the text
    parses to a mapping each of whose values is a string, a mapping, or a
    list without nested lists or mappings; in every other case it reports
    an error (and, by the lemma above, leaves the session). *)
Theorem save_changes_accepts_iff (json_loads : string -> option json)
  (ss : session_state) (dict_text : string) :
  (exists cleaned, save_changes json_loads ss dict_text =
                   ({| dictionaries := cleaned |}, Success "Dictionaries updated!")) <->
  (exists v, json_loads dict_text = Some v /\ well_formed_config v).
Proof.
  unfold save_changes, parse_and_clean. split.
  - intros [cleaned H]. destruct (json_loads dict_text) as [v|]; [|discriminate].
    exists v. split; [reflexivity|]. simpl in H.
    destruct v as [| | | | | |members]; try discriminate. simpl in H.
    exists members. split; [reflexivity|]. intros k val Hin.
    destruct (settable val) eqn:E; [reflexivity|].
    destruct (clean_loop_raises members k val TypeError Hin
                (set_of_not_settable val E) []) as [e He].
    unfold cleaned_of in H. rewrite He in H. discriminate.
  - intros (v & -> & members & -> & Hm). simpl.
    destruct (clean_loop_settable members Hm []) as [cleaned Hc].
    exists cleaned. unfold cleaned_of. now rewrite Hc.
Qed.

(** No two elements of the list are equal as Python values. *)
Definition distinct (ws : list atom) : Prop :=
  ForallOrdPairs (fun a b => py_eqb a b = false) ws.

Lemma set_add_distinct (x : atom) (s : list atom) : distinct s -> distinct (set_add x s).
Proof.
  unfold distinct. induction s as [|y r IH]; simpl; intros H.
  - constructor; constructor.
  - destruct (py_eqb y x) eqn:E; [exact H|].
    inversion H as [|? ? Hy Hr]; subst. constructor; [|now apply IH].
    apply Forall_forall. intros a Ha. destruct (set_add_In _ _ _ Ha) as [-> | Ha'].
    + exact E.
    + rewrite Forall_forall in Hy. now apply Hy.
Qed.

Lemma py_set_distinct (l : list atom) : distinct (py_set l).
Proof.
  unfold py_set. assert (H : distinct []) by constructor. revert H.
  generalize (@nil atom). induction l as [|x r IH]; simpl; intros acc H; [exact H|].
  apply IH. now apply set_add_distinct.
Qed.

Lemma set_of_distinct (v : json) (s : list atom) : set_of v = Ok s -> distinct s.
Proof.
  unfold set_of. destruct (iter v) as [elems|]; simpl; [|discriminate].
  destruct (mapM hashable elems) as [atoms|]; simpl; [|discriminate].
  intros [= <-]. apply py_set_distinct.
Qed.

Lemma In_keys_dict_set {V : Type} (n k : string) (v : V) (d : list (string * V)) :
  In n (keys (dict_set k v d)) -> n = k \/ In n (keys d).
Proof.
  induction d as [|[k' v'] r IH]; simpl.
  - intros [<- | []]. now left.
  - destruct (String.eqb_spec k' k) as [->|Hne]; simpl; [tauto|].
    intros [<- | H]; [tauto|]. destruct (IH H); tauto.
Qed.

Lemma NoDup_keys_dict_set {V : Type} (k : string) (v : V) (d : list (string * V)) :
  NoDup (keys d) -> NoDup (keys (dict_set k v d)).
Proof.
  induction d as [|[k' v'] r IH]; simpl; intros H.
  - constructor; [intros [] | constructor].
  - inversion H as [|? ? Hk Hr]; subst.
    destruct (String.eqb_spec k' k) as [->|Hne]; simpl; [now constructor|].
    constructor; [|now apply IH].
    intros Hin. destruct (In_keys_dict_set _ _ _ _ Hin); [congruence | contradiction].
Qed.

Lemma In_dict_set {V : Type} (c k : string) (w v : V) (d : list (string * V)) :
  In (c, w) (dict_set k v d) -> (c, w) = (k, v) \/ In (c, w) d.
Proof.
  induction d as [|[k' v'] r IH]; simpl.
  - intros [[= <- <-] | []]. now left.
  - destruct (String.eqb_spec k' k) as [->|Hne]; simpl.
    + intros [[= <- <-] | H]; [now left | right; now right].
    + intros [H | H]; [right; now left|]. destruct (IH H); [now left | right; now right].
Qed.

(** What the comprehension keeps true of the dictionary it builds. *)
Definition clean_dict (d : keyword_dict) : Prop :=
  NoDup (keys d) /\ forall c ws, In (c, ws) d -> distinct ws.

Lemma clean_step_keeps (acc acc' : keyword_dict) (kv : string * json) :
  clean_dict acc -> clean_step acc kv = Ok acc' -> clean_dict acc'.
Proof.
  intros [Hn Hd]. unfold clean_step.
  destruct (set_of (snd kv)) as [s|] eqn:E; simpl; [|discriminate].
  intros [= <-]. split; [now apply NoDup_keys_dict_set|].
  intros c ws Hin. destruct (In_dict_set _ _ _ _ _ Hin) as [[= -> ->] | Hin'].
  - now apply (set_of_distinct (snd kv)).
  - now apply (Hd c).
Qed.

Lemma clean_loop_keeps (members : list (string * json)) :
  forall acc cleaned,
  clean_dict acc -> foldM clean_step members acc = Ok cleaned -> clean_dict cleaned.
Proof.
  induction members as [|kv r IH]; cbn [foldM]; intros acc cleaned Hacc H.
  - now injection H as <-.
  - destruct (clean_step acc kv) as [acc'|] eqn:E; simpl in H; [|discriminate].
    apply (IH acc' cleaned); [now apply (clean_step_keeps acc acc' kv) | exact H].
Qed.

(** X6: after a successful save the stored dictionaries have distinct
    category names, and no keyword set holds two equal elements
    (duplicates of the edited lists are gone). *)
Theorem save_changes_stores_sets (json_loads : string -> option json)
  (ss ss' : session_state) (dict_text text : string) :
  save_changes json_loads ss dict_text = (ss', Success text) ->
  NoDup (keys (dictionaries ss')) /\
  forall c ws, In (c, ws) (dictionaries ss') -> distinct ws.
Proof.
  unfold save_changes. destruct (parse_and_clean json_loads dict_text) as [cleaned|] eqn:E;
    [|discriminate].
  intros [= <- _]. simpl. unfold parse_and_clean in E.
  destruct (json_loads dict_text) as [v|]; [|discriminate]. simpl in E.
  destruct (items v) as [members|]; [|discriminate]. simpl in E.
  apply (clean_loop_keeps members [] cleaned); [|exact E].
  split; [constructor | intros c ws []].
Qed.

(** A mapping with one keyword twice, and a mapping whose value is a bare
    string. *)
Definition repeated_keyword_text : string :=
  ("{" ++ quoted "sale" ++ ": [" ++ quoted "sale" ++ ", " ++ quoted "deal" ++ ", "
       ++ quoted "sale" ++ "]}")%string.

Definition bare_string_text : string :=
  ("{" ++ quoted "exclusive_marketing" ++ ": " ++ quoted "vip" ++ "}")%string.

(** A mapping with two categories. *)
Definition two_categories_text : string :=
  ("{" ++ quoted "price" ++ ": [" ++ quoted "sale" ++ "], "
       ++ quoted "access" ++ ": [" ++ quoted "vip" ++ "]}")%string.

(** A second decoder for the examples: it knows these three texts. *)
Definition sample_loads2 (text : string) : option json :=
  if String.eqb text repeated_keyword_text then
    Some (JObj [("sale", JArr [JStr "sale"; JStr "deal"; JStr "sale"])])
  else if String.eqb text bare_string_text then
    Some (JObj [("exclusive_marketing", JStr "vip")])
  else if String.eqb text two_categories_text then
    Some (JObj [("price", JArr [JStr "sale"]); ("access", JArr [JStr "vip"])])
  else None.

Lemma save_changes_stores_sets_witness :
  NoDup (keys [("sale", strs ["sale"; "deal"])]) /\
  forall c ws, In (c, ws) [("sale", strs ["sale"; "deal"])] -> distinct ws.
Proof.
  apply (save_changes_stores_sets sample_loads2 default_session
           {| dictionaries := [("sale", strs ["sale"; "deal"])] |}
           repeated_keyword_text "Dictionaries updated!").
  reflexivity.
Defined.

(** With distinct names the comprehension appends to [acc] one entry per
    member, in order: the name with the set of the value. *)
Lemma clean_loop_closed (members : list (string * json)) :
  forall acc cleaned,
  NoDup (keys acc ++ keys members) ->
  foldM clean_step members acc = Ok cleaned ->
  exists news,
    cleaned = acc ++ news /\
    Forall2 (fun kv cs => fst cs = fst kv /\ set_of (snd kv) = Ok (snd cs)) members news.
Proof.
  induction members as [|[k v] r IH]; cbn [foldM]; intros acc cleaned Hn H.
  - injection H as <-. exists []. split; [now rewrite app_nil_r | constructor].
  - unfold clean_step at 1 in H. cbn [fst snd] in H.
    destruct (set_of v) as [s|] eqn:E; simpl in H; [|discriminate].
    unfold keys in Hn. cbn [map fst] in Hn.
    rewrite dict_set_fresh in H
      by (apply NoDup_remove_2 in Hn; intros Hk; apply Hn, in_or_app; now left).
    destruct (IH (acc ++ [(k, s)]) cleaned) as (news & -> & HF).
    + unfold keys. rewrite map_app, <- app_assoc. exact Hn.
    + exact H.
    + exists ((k, s) :: news). split; [now rewrite <- app_assoc|].
      constructor; [now split | exact HF].
Qed.

Lemma Forall2_In_l {A B : Type} (R : A -> B -> Prop) (l : list A) (l' : list B) (x : A) :
  Forall2 R l l' -> In x l -> exists y, In y l' /\ R x y.
Proof.
  induction 1 as [|a b l l' Hab HF IH]; simpl; [intros []|].
  intros [<- | Hin]; [exists b; auto|].
  destruct (IH Hin) as (y & Hy & Hr). exists y. auto.
Qed.

(** The set of a string is the set of its characters. *)
Lemma set_of_string (s : string) (a : atom) :
  forall ws, set_of (JStr s) = Ok ws ->
  (In a ws <-> exists ch, In ch (list_ascii_of_string s) /\ a = AStr (String ch EmptyString)).
Proof.
  intros ws. unfold set_of. simpl.
  rewrite <- (map_map (fun c => String c EmptyString) JStr), mapM_hashable_strs. simpl.
  intros [= <-]. unfold strs. rewrite map_map. split.
  - intros H. apply py_set_In in H. apply in_map_iff in H.
    destruct H as (ch & <- & Hch). now exists ch.
  - intros (ch & Hch & ->). apply py_set_str. apply in_map_iff. now exists ch.
Qed.

(** X7: a category whose value in the edited text is a bare string, not a
    list, is stored with the characters of that string as its keywords. *)
Theorem save_changes_splits_string (json_loads : string -> option json)
  (ss ss' : session_state) (dict_text text : string)
  (members : list (string * json)) (k s : string) :
  json_loads dict_text = Some (JObj members) ->
  NoDup (keys members) ->
  In (k, JStr s) members ->
  save_changes json_loads ss dict_text = (ss', Success text) ->
  exists ws,
    In (k, ws) (dictionaries ss') /\
    forall a, In a ws <->
              exists ch, In ch (list_ascii_of_string s) /\ a = AStr (String ch EmptyString).
Proof.
  intros Hl Hn Hin. unfold save_changes, parse_and_clean. rewrite Hl. simpl.
  destruct (cleaned_of members) as [cleaned|] eqn:E; [|discriminate].
  intros [= <- _]. simpl.
  destruct (clean_loop_closed members [] cleaned Hn E) as (news & -> & HF).
  destruct (Forall2_In_l _ _ _ (k, JStr s) HF Hin) as ([k' ws] & Hws & Hk & Hs).
  simpl in Hk, Hs. subst k'. exists ws. split; [exact Hws|].
  intros a. now apply set_of_string.
Qed.

Lemma save_changes_splits_string_witness :
  exists ws,
    In ("exclusive_marketing", ws) [("exclusive_marketing", strs ["v"; "i"; "p"])] /\
    forall a, In a ws <->
              exists ch, In ch (list_ascii_of_string "vip") /\
                         a = AStr (String ch EmptyString).
Proof.
  apply (save_changes_splits_string sample_loads2 default_session
           {| dictionaries := [("exclusive_marketing", strs ["v"; "i"; "p"])] |}
           bare_string_text "Dictionaries updated!"
           [("exclusive_marketing", JStr "vip")] "exclusive_marketing" "vip").
  - reflexivity.
  - constructor; [intros [] | constructor].
  - left. reflexivity.
  - reflexivity.
Defined.

(** After the bare string [vip] was saved, a text with an [i] in it is
    tagged. *)
Example save_bare_string_then_tag :
  save_changes sample_loads2 default_session bare_string_text =
  ({| dictionaries := [("exclusive_marketing", strs ["v"; "i"; "p"])] |},
   Success "Dictionaries updated!") /\
  get_tags [("exclusive_marketing", strs ["v"; "i"; "p"])] (VStr "Nice day")
  = Ok ["exclusive_marketing"].
Proof. split; reflexivity. Qed.

Lemma mapM_hashable_atoms (ws : list atom) :
  mapM hashable (map atom_json ws) = Ok ws.
Proof.
  induction ws as [|a r IH]; simpl; [reflexivity|].
  now rewrite hashable_atom_json, IH.
Qed.

Lemma set_of_atoms (ws : list atom) :
  set_of (JArr (map atom_json ws)) = Ok (py_set ws).
Proof. unfold set_of. simpl. now rewrite mapM_hashable_atoms. Qed.

(** The dictionary with every keyword list turned into a set. *)
Definition sets_of (d : keyword_dict) : keyword_dict :=
  map (fun kv => (fst kv, py_set (snd kv))) d.

Lemma clean_loop_config (d : keyword_dict) :
  forall acc,
  NoDup (keys acc ++ keys d) ->
  foldM clean_step (map (fun kv => (fst kv, JArr (map atom_json (snd kv)))) d) acc =
  Ok (acc ++ sets_of d).
Proof.
  induction d as [|[c ws] r IH]; intros acc Hn; cbn [foldM map fst snd sets_of].
  - now rewrite app_nil_r.
  - unfold clean_step at 1. cbn [fst snd]. rewrite set_of_atoms. cbn [bind].
    unfold keys in Hn. cbn [map fst] in Hn.
    rewrite dict_set_fresh
      by (apply NoDup_remove_2 in Hn; intros H; apply Hn, in_or_app; now left).
    rewrite IH.
    + now rewrite <- app_assoc.
    + unfold keys. rewrite map_app, <- app_assoc. exact Hn.
Qed.

(** Saving the text that denotes [d] stores [d], its keyword lists turned
    into sets. *)
Lemma save_changes_config (json_loads : string -> option json)
  (ss : session_state) (dict_text : string) (d : keyword_dict) :
  json_loads dict_text = Some (config_of d) ->
  NoDup (keys d) ->
  save_changes json_loads ss dict_text =
  ({| dictionaries := sets_of d |}, Success "Dictionaries updated!").
Proof.
  intros Hl Hn. unfold save_changes, parse_and_clean. rewrite Hl.
  unfold config_of. cbn [bind items]. unfold cleaned_of.
  now rewrite (clean_loop_config d [] Hn).
Qed.

Lemma keys_sets_of (d : keyword_dict) : keys (sets_of d) = keys d.
Proof. unfold sets_of, keys. rewrite map_map. reflexivity. Qed.

Lemma In_sets_of (d : keyword_dict) (c : string) (ws : list atom) :
  In (c, ws) d -> In (c, py_set ws) (sets_of d).
Proof. intros H. unfold sets_of. apply in_map_iff. now exists (c, ws). Qed.

Lemma str_keywords_sets_of (d : keyword_dict) : str_keywords d -> str_keywords (sets_of d).
Proof.
  intros Hd c ws a H Ha. unfold sets_of in H. apply in_map_iff in H.
  destruct H as ([c' ws'] & [= <- <-] & Hin). apply py_set_In in Ha.
  now apply (Hd c' ws').
Qed.

(** A set of strings has a hit exactly when the list it was made of has. *)
Lemma hit_py_set (lo : string) (ws : list atom) : hit lo (py_set ws) = hit lo ws.
Proof.
  apply eq_true_iff_eq. rewrite !hit_spec.
  split; intros (w & Hw & Ho); exists w; (split; [|exact Ho]).
  - now apply py_set_In.
  - now apply py_set_str.
Qed.

Lemma matched_sets_of (lo : string) (d : keyword_dict) :
  matched lo (sets_of d) = matched lo d.
Proof.
  unfold matched, sets_of. induction d as [|[c ws] r IH]; simpl; [reflexivity|].
  rewrite hit_py_set. destruct (hit lo ws); simpl; now rewrite IH.
Qed.

(** X8: saving the text that denotes a dictionary with string keywords and
    distinct category names stores a dictionary with the same categories in
    the same order, each with the same keywords as a set, which tags every
    input as the denoted dictionary does. *)
Theorem save_changes_round_trip (json_loads : string -> option json)
  (ss : session_state) (dict_text : string) (d : keyword_dict) :
  str_keywords d ->
  NoDup (keys d) ->
  json_loads dict_text = Some (config_of d) ->
  exists cleaned,
    save_changes json_loads ss dict_text =
    ({| dictionaries := cleaned |}, Success "Dictionaries updated!") /\
    keys cleaned = keys d /\
    (forall c ws, In (c, ws) d ->
       exists ws', In (c, ws') cleaned /\ forall a, In a ws' <-> In a ws) /\
    (forall x, get_tags cleaned x = get_tags d x).
Proof.
  intros Hd Hn Hl. exists (sets_of d).
  split; [now apply save_changes_config|]. split; [apply keys_sets_of|]. split.
  - intros c ws Hin. exists (py_set ws). split; [now apply In_sets_of|].
    intros a. split; [apply py_set_In|].
    intros Ha. destruct (Hd c ws a Hin Ha) as [w ->]. now apply py_set_str.
  - intros x. rewrite (get_tags_strs d x Hd).
    rewrite (get_tags_strs (sets_of d) x (str_keywords_sets_of d Hd)).
    now rewrite matched_sets_of.
Qed.

Lemma save_changes_round_trip_witness :
  exists cleaned,
    save_changes sample_loads default_session empty_keyword_text =
    ({| dictionaries := cleaned |}, Success "Dictionaries updated!") /\
    keys cleaned = keys always_dict /\
    (forall c ws, In (c, ws) always_dict ->
       exists ws', In (c, ws') cleaned /\ forall a, In a ws' <-> In a ws) /\
    (forall x, get_tags cleaned x = get_tags always_dict x).
Proof.
  apply (save_changes_round_trip sample_loads default_session empty_keyword_text
           always_dict).
  - apply str_keywordsb_ok. reflexivity.
  - constructor; [intros [] | constructor].
  - reflexivity.
Defined.

(* ================================================================= *)
(** ** The editor text and the Reset button (lines 50-63) *)

(** The Python objects handed to [json.dumps]: hashable values, lists,
    sets and dicts with string keys. *)
#[warnings="-register-all"]
Inductive pyobj : Type :=
| OAtom (a : atom)
| OList (elems : list pyobj)
| OSet (elems : list atom)
| ODict (entries : list (string * pyobj)).

(** What [json.dumps] can write: it has no encoding for a set, wherever
    the set sits in the object. *)
Fixpoint serializable (o : pyobj) : bool :=
  match o with
  | OAtom _ => true
  | OList elems => forallb serializable elems
  | OSet _ => false
  | ODict entries =>
      forallb (fun kv => match kv with (_, v) => serializable v end) entries
  end.

(** The dictionaries of the session as a Python object: a dict of sets. *)
Definition obj_of_dictionaries (d : keyword_dict) : pyobj :=
  ODict (map (fun kv => (fst kv, OSet (snd kv))) d).

(** The entries of [st.session_state]: ["dictionaries"] and the text of the
    editor widget, ["dict_text"]. *)
Record page_state : Type := { session : session_state; dict_text : option string }.

Section Editor.

(** The text [json.dumps(o, indent=4)] writes for an object it can write;
    the encoder itself is the library's. *)
Variable encode : pyobj -> string.

(** [json.dumps(o, indent=4)] *)
Definition json_dumps (o : pyobj) : result string :=
  if serializable o then Ok (encode o) else Raise TypeError.

(** The [value] of the text area (line 60). *)
Definition editor_value (ss : session_state) : result string :=
  json_dumps (obj_of_dictionaries (dictionaries ss)).

(** [reset_to_default] (lines 50-52): the state it leaves and the exception
    it ends with, if any. *)
Definition reset_to_default (ps : page_state) : page_state * option exn :=
  match json_dumps (obj_of_dictionaries DEFAULT_DICTIONARIES) with
  | Raise e => (ps, Some e)
  | Ok text =>
      ({| session := {| dictionaries := DEFAULT_DICTIONARIES |};
          dict_text := Some text |}, None)
  end.

Lemma serializable_dictionaries (d : keyword_dict) :
  serializable (obj_of_dictionaries d) = match d with [] => true | _ => false end.
Proof. destruct d as [|[c ws] r]; reflexivity. Qed.

Lemma editor_value_not_nil (ss : session_state) :
  dictionaries ss <> [] -> editor_value ss = Raise TypeError.
Proof.
  unfold editor_value, json_dumps. rewrite serializable_dictionaries.
  destruct (dictionaries ss); [now intros H | reflexivity].
Qed.

(** X9: the text of the editor can be written for the empty dictionaries
    only: as soon as there is one category, [json.dumps] meets a set and
    raises [TypeError]. *)
Theorem editor_value_raises (ss : session_state) :
  (dictionaries ss = [] -> editor_value ss = Ok (encode (ODict []))) /\
  (dictionaries ss <> [] -> editor_value ss = Raise TypeError).
Proof.
  split; [|apply editor_value_not_nil].
  unfold editor_value, json_dumps. now intros ->.
Qed.

(** X10: the callback of the Reset button raises [TypeError] on its first
    line, whatever the session holds, and restores nothing: neither the
    editor text nor the dictionaries are assigned. *)
Theorem reset_to_default_raises (ps : page_state) :
  reset_to_default ps = (ps, Some TypeError).
Proof. reflexivity. Qed.

Lemma dict_set_not_nil {V : Type} (k : string) (v : V) (d : list (string * V)) :
  dict_set k v d <> [].
Proof. destruct d as [|[k' v'] r]; simpl; [|destruct (String.eqb k' k)]; discriminate. Qed.

Lemma clean_loop_not_nil (members : list (string * json)) :
  forall acc cleaned,
  acc <> [] -> foldM clean_step members acc = Ok cleaned -> cleaned <> [].
Proof.
  induction members as [|kv r IH]; cbn [foldM]; intros acc cleaned Ha H.
  - now injection H as <-.
  - unfold clean_step at 1 in H.
    destruct (set_of (snd kv)) as [s|]; simpl in H; [|discriminate].
    apply (IH _ _ (dict_set_not_nil (fst kv) s acc) H).
Qed.

(** X11: once a mapping with at least one category has been saved, the text
    of the editor cannot be written any more. *)
Theorem editor_value_after_save (json_loads : string -> option json)
  (ss ss' : session_state) (text msg : string)
  (kv : string * json) (members : list (string * json)) :
  json_loads text = Some (JObj (kv :: members)) ->
  save_changes json_loads ss text = (ss', Success msg) ->
  editor_value ss' = Raise TypeError.
Proof.
  intros Hl. unfold save_changes, parse_and_clean. rewrite Hl. cbn [bind items].
  destruct (cleaned_of (kv :: members)) as [cleaned|] eqn:E; [|discriminate].
  intros [= <- _]. apply editor_value_not_nil. cbn [dictionaries].
  unfold cleaned_of in E. cbn [foldM] in E. unfold clean_step at 1 in E.
  destruct (set_of (snd kv)) as [s|]; cbn [bind] in E; [|discriminate].
  apply (clean_loop_not_nil members _ cleaned (dict_set_not_nil (fst kv) s []) E).
Qed.

End Editor.

(** A stand-in for the encoder in the examples. *)
Definition braces_encode (o : pyobj) : string := "{}".

Lemma editor_value_raises_witness :
  editor_value braces_encode default_session = Raise TypeError.
Proof.
  apply (proj2 (editor_value_raises braces_encode default_session)).
  discriminate.
Defined.

Lemma editor_value_after_save_witness :
  editor_value braces_encode {| dictionaries := always_dict |} = Raise TypeError.
Proof.
  apply (editor_value_after_save braces_encode sample_loads default_session
           {| dictionaries := always_dict |} empty_keyword_text
           "Dictionaries updated!" ("always", JArr [JStr ""; JStr "sale"]) []).
  - reflexivity.
  - reflexivity.
Defined.

(* ================================================================= *)
(** ** More about the classification: errors, columns and rows *)

Lemma mapM_raise {A B : Type} (f : A -> result B) (l : list A) (e : exn) :
  mapM f l = Raise e -> exists x, In x l /\ f x = Raise e.
Proof.
  induction l as [|x r IH]; simpl; [discriminate|].
  destruct (f x) as [y|e'] eqn:E; simpl.
  - destruct (mapM f r) as [ys|e'] eqn:E'; simpl; [discriminate|].
    intros [= ->]. destruct (IH eq_refl) as (x' & Hin & Hx). exists x'. auto.
  - intros [= ->]. exists x. auto.
Qed.

Lemma mapM_length {A B : Type} (f : A -> result B) (l : list A) :
  forall l', mapM f l = Ok l' -> List.length l' = List.length l.
Proof.
  induction l as [|x r IH]; simpl; intros l'.
  - now intros [= <-].
  - destruct (f x) as [y|]; simpl; [|discriminate].
    destruct (mapM f r) as [ys|]; simpl; [|discriminate].
    intros [= <-]. simpl. now rewrite (IH ys).
Qed.

(** Some category of [d] has a keyword that is not a string. *)
Definition has_non_string (d : keyword_dict) : Prop :=
  exists c ws a, In (c, ws) d /\ In a ws /\ is_str a = false.

Lemma get_tags_raise (d : keyword_dict) (x : value) (e : exn) :
  get_tags d x = Raise e -> e = TypeError /\ has_non_string d.
Proof. unfold get_tags. apply get_tags_loop_raise. Qed.

Lemma apply_tags_raise (d : keyword_dict) (col : column) (e : exn) :
  apply (tags_of d) col = Raise e -> e = TypeError /\ has_non_string d.
Proof.
  intros H. apply mapM_raise in H. destruct H as (x & _ & Hx). unfold tags_of in Hx.
  destruct (get_tags d x) as [t|e'] eqn:E; simpl in Hx; [discriminate|].
  injection Hx as ->. now apply (get_tags_raise d x).
Qed.

Lemma apply_flag_raise (d : keyword_dict) (c : string) (col : column) (e : exn) :
  apply (flag_of d c) col = Raise e -> e = TypeError /\ has_non_string d.
Proof.
  intros H. apply mapM_raise in H. destruct H as (x & _ & Hx). unfold flag_of in Hx.
  destruct (get_tags d x) as [t|e'] eqn:E; simpl in Hx; [discriminate|].
  injection Hx as ->. now apply (get_tags_raise d x).
Qed.

(** What a step of the loop that returns has done. *)
Lemma flag_step_ok (d : keyword_dict) (cur cur' : dataframe) (c : string) :
  flag_step d cur c = Ok cur' ->
  exists statement flags,
    dict_get "Statement" cur = Some statement /\
    List.length flags = List.length statement /\
    cur' = dict_set c flags cur.
Proof.
  unfold flag_step, df_getitem, df_setitem.
  destruct (dict_get "Statement" cur) as [statement|]; simpl; [|discriminate].
  destruct (apply (flag_of d c) statement) as [flags|] eqn:E; simpl; [|discriminate].
  intros [= <-]. exists statement, flags.
  split; [reflexivity|]. split; [now apply (mapM_length _ _ _ E) | reflexivity].
Qed.

Lemma dict_get_set_some {V : Type} (n k : string) (v : V) (d : list (string * V)) :
  dict_get n d <> None -> dict_get n (dict_set k v d) <> None.
Proof.
  intros H. destruct (string_dec n k) as [->|Hne].
  - now rewrite dict_get_set_same.
  - now rewrite dict_get_set_other.
Qed.

Lemma flag_loop_raise (d : keyword_dict) (cs : list string) (e : exn) :
  forall cur,
  dict_get "Statement" cur <> None ->
  foldM (flag_step d) cs cur = Raise e ->
  e = TypeError /\ has_non_string d.
Proof.
  induction cs as [|c r IH]; cbn [foldM]; intros cur Hcur H; [discriminate|].
  destruct (flag_step d cur c) as [cur'|e'] eqn:E; cbn [bind] in H.
  - apply flag_step_ok in E. destruct E as (st & flags & _ & _ & ->).
    apply (IH _ (dict_get_set_some _ _ _ _ Hcur) H).
  - injection H as ->. unfold flag_step, df_getitem in E.
    destruct (dict_get "Statement" cur) as [st|]; [|now destruct Hcur]. cbn [bind] in E.
    destruct (apply (flag_of d c) st) as [flags|e'] eqn:E'; cbn [bind] in E; [discriminate|].
    injection E as ->. now apply (apply_flag_raise d c st).
Qed.

(** X12: an exception leaves the run only as a [TypeError], and only when
    the dictionaries hold a keyword that is not a string; in particular no
    [KeyError] is raised, whatever the categories are called. *)
Theorem classify_uncaught (d : keyword_dict) (df : dataframe) (e : exn) :
  classify d df = Uncaught e -> e = TypeError /\ has_non_string d.
Proof.
  unfold classify. destruct (mem "Statement" (columns df)) eqn:Hm; simpl; [|discriminate].
  apply mem_In in Hm. unfold columns in Hm.
  destruct (annotate d df) as [out|e'] eqn:E; [discriminate|]. intros [= ->].
  unfold annotate, df_getitem, df_setitem in E.
  destruct (dict_get "Statement" df) as [st|] eqn:Hst;
    [|apply dict_get_None in Hst; contradiction].
  cbn [bind] in E.
  destruct (apply (tags_of d) st) as [tags|e'] eqn:Et; cbn [bind] in E.
  - apply (flag_loop_raise d (keys d) e (dict_set "Tags" tags df)); [|exact E].
    apply dict_get_set_some. now rewrite Hst.
  - injection E as ->. now apply (apply_tags_raise d st).
Qed.

Lemma classify_uncaught_witness :
  TypeError = TypeError /\ has_non_string numbers_dict.
Proof.
  apply (classify_uncaught numbers_dict sale_frame TypeError).
  reflexivity.
Defined.

Lemma keys_dict_set_extends {V : Type} (k : string) (v : V) (d : list (string * V)) :
  exists extra, keys (dict_set k v d) = keys d ++ extra.
Proof.
  induction d as [|[k' v'] r IH]; simpl.
  - now exists [k].
  - destruct (String.eqb k' k); simpl.
    + exists []. now rewrite app_nil_r.
    + destruct IH as [extra ->]. now exists extra.
Qed.

Lemma flag_loop_frame (d : keyword_dict) (cs : list string) :
  forall cur out,
  foldM (flag_step d) cs cur = Ok out ->
  (exists extra, keys out = keys cur ++ extra) /\
  (forall n, ~ In n cs -> dict_get n out = dict_get n cur).
Proof.
  induction cs as [|c r IH]; cbn [foldM]; intros cur out H.
  - injection H as <-. split; [exists []; now rewrite app_nil_r | reflexivity].
  - destruct (flag_step d cur c) as [cur'|] eqn:E; cbn [bind] in H; [|discriminate].
    apply flag_step_ok in E. destruct E as (st & flags & _ & _ & ->).
    destruct (IH _ _ H) as [[extra He] Hf]. split.
    + destruct (keys_dict_set_extends (V := column) c flags cur) as [extra' He'].
      exists (extra' ++ extra). unfold column in *. now rewrite He, He', app_assoc.
    + intros n Hn. rewrite Hf by (intros Hr; apply Hn; now right).
      apply dict_get_set_other. intros ->. apply Hn. now left.
Qed.

Lemma classify_annotate (d : keyword_dict) (df out : dataframe) :
  classify d df = Complete out ->
  exists statement tags,
    dict_get "Statement" df = Some statement /\
    List.length tags = List.length statement /\
    foldM (flag_step d) (keys d) (dict_set "Tags" tags df) = Ok out.
Proof.
  unfold classify. destruct (mem "Statement" (columns df)); simpl; [|discriminate].
  destruct (annotate d df) as [out'|] eqn:E; [|discriminate]. intros [= <-].
  unfold annotate, df_getitem, df_setitem in E.
  destruct (dict_get "Statement" df) as [st|]; cbn [bind] in E; [|discriminate].
  destruct (apply (tags_of d) st) as [tags|] eqn:Et; cbn [bind] in E; [|discriminate].
  exists st, tags. split; [reflexivity|]. split; [now apply (mapM_length _ _ _ Et) | exact E].
Qed.

(** X13: a run that completes drops, renames and moves no column: the
    column names of the input are the first column names of the output, in
    the same order; and every column whose name is neither [Tags] nor a
    category name has the cells it had. *)
Theorem classify_keeps_columns (d : keyword_dict) (df out : dataframe) :
  classify d df = Complete out ->
  (exists extra, columns out = columns df ++ extra) /\
  (forall n, n <> "Tags" -> ~ In n (keys d) -> dict_get n out = dict_get n df).
Proof.
  intros H. apply classify_annotate in H. destruct H as (st & tags & _ & _ & H).
  apply flag_loop_frame in H. destruct H as [[extra He] Hf]. split.
  - destruct (keys_dict_set_extends (V := column) "Tags" tags df) as [extra' He'].
    exists (extra' ++ extra). unfold columns, column in *. now rewrite He, He', app_assoc.
  - intros n Hn Hd. rewrite (Hf n Hd). now apply dict_get_set_other.
Qed.

(** The sample frame with a [Tags] column from an earlier review. *)
Definition tagged_review : dataframe :=
  [ ("id", [VInt 1; VInt 2]);
    ("Statement", [VStr "Hurry, VIP only"; VStr "The weather is nice today"]);
    ("Tags", [VStr "checked"; VStr "checked"]) ].

Lemma classify_keeps_columns_witness :
  (exists extra, columns review_output = columns tagged_review ++ extra) /\
  (forall n, n <> "Tags" -> ~ In n (keys DEFAULT_DICTIONARIES) ->
             dict_get n review_output = dict_get n tagged_review).
Proof.
  apply (classify_keeps_columns DEFAULT_DICTIONARIES tagged_review review_output).
  reflexivity.
Defined.

(** Every column of the frame has [n] cells. *)
Definition rows (n : nat) (df : dataframe) : Prop :=
  forall name col, In (name, col) df -> List.length col = n.

Lemma rows_dict_set (n : nat) (k : string) (col : column) (df : dataframe) :
  rows n df -> List.length col = n -> rows n (dict_set k col df).
Proof.
  intros Hr Hc name col' Hin.
  destruct (In_dict_set _ _ _ _ _ Hin) as [[= -> ->] | Hin']; [exact Hc | now apply (Hr name)].
Qed.

Lemma flag_loop_rows (d : keyword_dict) (n : nat) (cs : list string) :
  forall cur out, rows n cur -> foldM (flag_step d) cs cur = Ok out -> rows n out.
Proof.
  induction cs as [|c r IH]; cbn [foldM]; intros cur out Hr H.
  - now injection H as <-.
  - destruct (flag_step d cur c) as [cur'|] eqn:E; cbn [bind] in H; [|discriminate].
    apply flag_step_ok in E. destruct E as (st & flags & Hst & Hlen & ->).
    apply (IH _ _ (rows_dict_set n c flags cur Hr
                     (eq_trans Hlen (Hr _ _ (dict_get_In "Statement" st cur Hst)))) H).
Qed.

(** X14: a run that completes keeps the frame rectangular: when every
    column of the input has [n] cells, so has every column of the output,
    the added ones included. *)
Theorem classify_keeps_rows (d : keyword_dict) (df out : dataframe) (n : nat) :
  classify d df = Complete out -> rows n df -> rows n out.
Proof.
  intros H Hr. apply classify_annotate in H. destruct H as (st & tags & Hst & Hlen & H).
  apply (flag_loop_rows d n (keys d) (dict_set "Tags" tags df) out); [|exact H].
  apply rows_dict_set; [exact Hr|].
  rewrite Hlen. apply (Hr "Statement"). now apply dict_get_In.
Qed.

Lemma classify_keeps_rows_witness : rows 2 review_output.
Proof.
  apply (classify_keeps_rows DEFAULT_DICTIONARIES review_frame review_output 2).
  - reflexivity.
  - intros name col [[= <- <-] | [[= <- <-] | []]]; reflexivity.
Defined.

(* ================================================================= *)
(** ** The main panel (lines 85-136) *)

(** What the main panel does in one run of the script. *)
Inductive panel : Type :=
| Ran (o : outcome)       (* the branch of line 89 *)
| Info (text : string)    (* [st.info(...)], line 136 *)
| Nothing.                (* a file is there and the button was not pressed *)

Section MainPanel.

(** An uploaded file, and [pd.read_csv] on it: the frame, or the text of
    the exception it raised.  The reader itself is the library's. *)
Variable upload : Type.
Variable read_csv : upload -> string + dataframe.

(** Lines 89-136, for the dictionaries [d] of the session. *)
Definition main_panel (d : keyword_dict) (uploaded_file : option upload)
  (run_btn : bool) : panel :=
  match uploaded_file with
  | Some file =>
      if run_btn then
        match read_csv file with
        | inl e => Ran (Stopped ("Error reading CSV: " ++ e))
        | inr df => Ran (classify d df)
        end
      else Nothing
  | None => Info "Upload a CSV file to begin."
  end.

(** X15: the main panel ends with an annotated frame only when the button
    was pressed on an uploaded file that pandas could read and that has a
    [Statement] column; the frame is then the annotation of the frame
    read. *)
Theorem main_panel_complete (d : keyword_dict) (uploaded_file : option upload)
  (run_btn : bool) (out : dataframe) :
  main_panel d uploaded_file run_btn = Ran (Complete out) ->
  run_btn = true /\
  exists file df,
    uploaded_file = Some file /\ read_csv file = inr df /\
    In "Statement" (columns df) /\ annotate d df = Ok out.
Proof.
  unfold main_panel. destruct uploaded_file as [file|]; [|discriminate].
  destruct run_btn; [|discriminate].
  destruct (read_csv file) as [e|df] eqn:E; [discriminate|].
  intros [= H]. split; [reflexivity|]. exists file, df.
  split; [reflexivity|]. split; [exact E|].
  unfold classify in H. destruct (mem "Statement" (columns df)) eqn:Hm; simpl in H;
    [|discriminate].
  split; [now apply mem_In|].
  destruct (annotate d df); [now injection H as -> | discriminate].
Qed.

End MainPanel.

Lemma main_panel_complete_witness :
  true = true /\
  exists file df,
    Some review_frame = Some file /\ @inr string dataframe file = inr df /\
    In "Statement" (columns df) /\ annotate DEFAULT_DICTIONARIES df = Ok review_output.
Proof.
  apply (main_panel_complete dataframe (@inr string dataframe) DEFAULT_DICTIONARIES
           (Some review_frame) true review_output).
  reflexivity.
Defined.

(* ================================================================= *)
(** ** The order of the categories after a save *)

Lemma Forall2_keys (members : list (string * json)) (news : keyword_dict) :
  Forall2 (fun kv cs => fst cs = fst kv /\ set_of (snd kv) = Ok (snd cs)) members news ->
  keys news = keys members.
Proof.
  induction 1 as [|kv cs l l' [Hk _] _ IH]; simpl; [reflexivity|]. now rewrite Hk, IH.
Qed.

(** X16: a successful save stores the categories in the order in which the
    edited mapping lists them, which is the order [get_tags] and the
    classification go through them. *)
Theorem save_changes_keeps_order (json_loads : string -> option json)
  (ss ss' : session_state) (dict_text text : string) (members : list (string * json)) :
  json_loads dict_text = Some (JObj members) ->
  NoDup (keys members) ->
  save_changes json_loads ss dict_text = (ss', Success text) ->
  keys (dictionaries ss') = keys members.
Proof.
  intros Hl Hn. unfold save_changes, parse_and_clean. rewrite Hl. cbn [bind items].
  destruct (cleaned_of members) as [cleaned|] eqn:E; [|discriminate].
  intros [= <- _]. cbn [dictionaries].
  destruct (clean_loop_closed members [] cleaned Hn E) as (news & -> & HF).
  now apply Forall2_keys.
Qed.

Lemma save_changes_keeps_order_witness :
  keys [("price", strs ["sale"]); ("access", strs ["vip"])] =
  keys [("price", JArr [JStr "sale"]); ("access", JArr [JStr "vip"])].
Proof.
  apply (save_changes_keeps_order sample_loads2 default_session
           {| dictionaries := [("price", strs ["sale"]); ("access", strs ["vip"])] |}
           two_categories_text "Dictionaries updated!"
           [("price", JArr [JStr "sale"]); ("access", JArr [JStr "vip"])]).
  - reflexivity.
  - constructor; [simpl; intros [H | []]; discriminate|].
    constructor; [intros [] | constructor].
  - reflexivity.
Defined.

(* ================================================================= *)
(** ** Empty keywords, at save time and at match time *)

(** A mapping with a number among the keywords, next to a category with the
    empty keyword, and a decoder for the example that knows its text. *)
Definition numbers_always_text : string :=
  ("{" ++ quoted "numbers" ++ ": [1], " ++ quoted "always" ++ ": [" ++ quoted "" ++ "]}")%string.

Definition numbers_always_dict : keyword_dict :=
  [("numbers", [AInt 1]); ("always", strs [""])].

Definition numbers_loads (text : string) : option json :=
  if String.eqb text numbers_always_text then
    Some (JObj [("numbers", JArr [JInt 1]); ("always", JArr [JStr ""])])
  else None.

(** C10, as stated, fails: the handler stores a dictionary whose category
    [always] has the empty keyword and whose category [numbers] has the
    keyword 1; for every input [get_tags] then raises [TypeError] on the
    number, so there is no matched output and [always] is not in it. *)
Lemma empty_keyword_not_returned :
  save_changes numbers_loads default_session numbers_always_text =
  ({| dictionaries := numbers_always_dict |}, Success "Dictionaries updated!") /\
  In ("always", strs [""]) numbers_always_dict /\
  In (AStr "") (strs [""]) /\
  get_tags numbers_always_dict (VStr "Summer sale") = Raise TypeError /\
  ~ (exists tags, get_tags numbers_always_dict (VStr "Summer sale") = Ok tags /\
                  In "always" tags).
Proof.
  split; [reflexivity|]. split; [right; now left|]. split; [now left|].
  split; [reflexivity|]. intros (tags & H & _). discriminate.
Qed.

(** Whenever [get_tags] returns, a category with the empty keyword is in
    the list. *)
Lemma empty_keyword_in_tags (d : keyword_dict) (c : string) (ws : list atom)
  (x : value) (tags : list string) :
  In (c, ws) d -> In (AStr "") ws -> get_tags d x = Ok tags -> In c tags.
Proof.
  intros Hin He H. unfold get_tags in H. apply get_tags_loop_ok in H. simpl in H.
  subst tags. apply matched_spec. exists ws. split; [exact Hin|].
  now apply empty_keyword_hit.
Qed.

(** C10, amended: a category with the empty keyword is in the matched
    output whenever [get_tags] returns one, whatever the text, and
    [get_tags] always returns one when the keywords are strings (a keyword
    that is not a string can make it raise [TypeError] instead).  The
    handler does not reject the empty keyword: saving the text that denotes
    the dictionary stores the category with the empty keyword in its set,
    and the stored dictionary matches in the same way. *)
Theorem empty_keyword_kept_and_matched (json_loads : string -> option json)
  (d : keyword_dict) (c : string) (ws : list atom) :
  In (c, ws) d ->
  In (AStr "") ws ->
  (forall x tags, get_tags d x = Ok tags -> In c tags) /\
  (str_keywords d -> forall x, exists tags, get_tags d x = Ok tags /\ In c tags) /\
  (forall ss dict_text,
     json_loads dict_text = Some (config_of d) ->
     NoDup (keys d) ->
     exists cleaned ws',
       save_changes json_loads ss dict_text =
       ({| dictionaries := cleaned |}, Success "Dictionaries updated!") /\
       In (c, ws') cleaned /\ In (AStr "") ws' /\
       (forall x tags, get_tags cleaned x = Ok tags -> In c tags) /\
       (str_keywords d ->
        forall x, exists tags, get_tags cleaned x = Ok tags /\ In c tags)).
Proof.
  intros Hin He.
  assert (Htotal : forall d' ws', In (c, ws') d' -> In (AStr "") ws' -> str_keywords d' ->
            forall x, exists tags, get_tags d' x = Ok tags /\ In c tags).
  { intros d' ws' Hin' He' Hd' x. exists (matched (lower (py_str x)) d').
    pose proof (get_tags_strs d' x Hd') as H. split; [exact H|].
    now apply (empty_keyword_in_tags d' c ws' x). }
  split; [intros x tags; now apply (empty_keyword_in_tags d c ws)|].
  split; [now apply (Htotal d ws)|].
  intros ss dict_text Hl Hn.
  assert (Hc : In (c, py_set ws) (sets_of d)) by now apply In_sets_of.
  assert (Hw : In (AStr "") (py_set ws)) by now apply py_set_str.
  exists (sets_of d), (py_set ws).
  split; [now apply save_changes_config|]. split; [exact Hc|]. split; [exact Hw|]. split.
  - intros x tags. now apply (empty_keyword_in_tags (sets_of d) c (py_set ws)).
  - intros Hd. apply (Htotal (sets_of d) (py_set ws) Hc Hw). now apply str_keywords_sets_of.
Qed.

Lemma empty_keyword_kept_and_matched_witness :
  (forall x tags, get_tags always_dict x = Ok tags -> In "always" tags) /\
  (forall x, exists tags, get_tags always_dict x = Ok tags /\ In "always" tags) /\
  exists cleaned ws',
    save_changes sample_loads default_session empty_keyword_text =
    ({| dictionaries := cleaned |}, Success "Dictionaries updated!") /\
    In ("always", ws') cleaned /\ In (AStr "") ws' /\
    (forall x tags, get_tags cleaned x = Ok tags -> In "always" tags) /\
    (forall x, exists tags, get_tags cleaned x = Ok tags /\ In "always" tags).
Proof.
  destruct (empty_keyword_kept_and_matched sample_loads always_dict "always"
              (strs [""; "sale"])) as (Hpartial & Htotal & Hsave).
  - simpl. left. reflexivity.
  - simpl. left. reflexivity.
  - assert (Hd : str_keywords always_dict) by (apply str_keywordsb_ok; reflexivity).
    split; [exact Hpartial|]. split; [exact (Htotal Hd)|].
    destruct (Hsave default_session empty_keyword_text) as (cleaned & ws' & H1 & H2 & H3 & H4 & H5).
    + reflexivity.
    + constructor; [intros [] | constructor].
    + exists cleaned, ws'. repeat split; try assumption. exact (H5 Hd).
Defined.
